(** * Church attendance: sheet adapter, attendance view model, authorization gate

    A shallow embedding of
    - the Cloud Functions that read and update the "Attendance" sheet
      ([getAttendanceDataFromSheet], [updateAttendanceInSheet] and their
      HTTP handlers),
    - the React state of [App.tsx] and its handlers
      ([updateAttendanceRecordsForDate], [handleAttendanceChange],
      [handleDateChange], [fetchAttendanceData], [saveAttendanceData],
      [formatDateForDisplay]),
    - the Firestore-backed whitelist of [auth-config.ts] and the removal
      handler of [UserManagement.tsx].

    Asynchronous functions are modelled by the state they leave behind when
    their promise settles; the outcome of each network or API call is an
    explicit argument. *)

From Stdlib Require Import ZArith Lia Ascii DecimalString.
From stdpp Require Import gmap list fin_maps strings.

Local Open Scope string_scope.
Local Open Scope list_scope.
Local Open Scope nat_scope.

(** ** JavaScript helpers *)

(** A primitive held by a sheet cell, as [spreadsheets.values.get] may hand it
    over and as [batchUpdate] stores it: text or a boolean. *)
Inductive value :=
  | VStr (s : string)
  | VBool (b : bool).

#[global] Instance value_eq_dec : EqDecision value.
Proof. solve_decision. Defined.

(** [x === s] for a possibly undefined [x] and a string [s]. *)
Definition strict_eq_str (x : option value) (s : string) : bool :=
  match x with
  | Some (VStr t) => bool_decide (t = s)
  | _ => false
  end.

(** [String(v)], the coercion applied to a property key. *)
Definition to_key (v : value) : string :=
  match v with
  | VStr s => s
  | VBool true => "true"
  | VBool false => "false"
  end.

(** [Array.prototype.findIndex]; [None] stands for [-1]. *)
Fixpoint findIndex {A} (p : A → bool) (l : list A) : option nat :=
  match l with
  | [] => None
  | x :: l' => if p x then Some 0 else S <$> findIndex p l'
  end.

(** ASCII part of [String.prototype.toLowerCase]. *)
Definition lower_ascii (c : ascii) : ascii :=
  let n := nat_of_ascii c in
  if (65 <=? n)%nat && (n <=? 90)%nat then ascii_of_nat (n + 32) else c.

Fixpoint toLowerCase (s : string) : string :=
  match s with
  | EmptyString => EmptyString
  | String c s' => String (lower_ascii c) (toLowerCase s')
  end.

(** Text within ASCII: every character code is below 128. On such text
    [toLowerCase] above is all of [String.prototype.toLowerCase], which
    outside ASCII folds further letters, and the white space that
    [String.prototype.trim] removes is tab, line feed, vertical tab, form
    feed, carriage return and space. *)
Fixpoint is_ascii (s : string) : bool :=
  match s with
  | EmptyString => true
  | String c s' => (nat_of_ascii c <? 128)%nat && is_ascii s'
  end.

(** A key under which [obj[key] = v] stores an own property of a plain
    object: every key but ["__proto__"], which names the accessor of the
    prototype, so that assigning a boolean to it stores nothing. *)
Definition own_key (key : string) : Prop := key ≠ "__proto__".

(** What the functions print with [console.error], [console.warn] and
    [console.log], kept because it is the only place where the reason of a
    [false] result shows. *)
Inductive log :=
  | LogNoClient                      (* "Could not initialize Google Sheets client" *)
  | LogMissingSheetId                (* "Missing sheet ID" *)
  | LogNoDataToUpdate                (* "No data found in sheet to update" *)
  | LogDateNotFound (date : string)  (* "Date '...' not found in spreadsheet headers" *)
  | LogNameNotFound (name : string)  (* "Name '...' not found in spreadsheet" *)
  | LogUpdated (n : nat)             (* "Updated n attendance records for ..." *)
  | LogNoValidRecords                (* "No valid attendance records to update" *)
  | LogUpdateError                   (* "Error updating attendance in sheet:" *)
  | LogNoDataFound                   (* "No data found in the specified range" *)
  | LogGetError.                     (* "Error getting attendance data from sheet:" *)

(** The record of the update payload and of the per-date view:
    [interface AttendanceRecord { name: string; present: boolean }]. *)
Record AttendanceRecord := mkRecord { name : string; present : bool }.

#[global] Instance AttendanceRecord_eq_dec : EqDecision AttendanceRecord.
Proof. solve_decision. Defined.

(** ** The sheet adapter (Cloud Functions) *)
(** A row of the sheet and the whole range [Attendance!A1:Z], as
    [response.data.values] has them. *)
Abbreviation row := (list value).
Abbreviation table := (list (list value)).

Module Sheet.

(** The cell at 0-based row [r] and column [c]; [None] when the row or the
    cell is not there ([undefined]). *)
Definition cell (t : table) (r c : nat) : option value :=
  t !! r ≫= λ rw : row, rw !! c.

(** The Sheets service as the functions see it. *)
Record api := mkApi {
  client_ok : bool; (* getGoogleSheetsClient yields a client, not null *)
  sheet_id : bool;  (* process.env.GOOGLE_SHEET_ID is set *)
  get_ok : bool;    (* spreadsheets.values.get resolves *)
  batch_ok : bool   (* spreadsheets.values.batchUpdate resolves *)
}.

(** A returned value or a thrown exception, with what was printed. *)
Inductive outcome (A : Type) :=
  | Returned (a : A) (logs : list log)
  | Thrown (logs : list log).
Arguments Returned {A} a logs.
Arguments Thrown {A} logs.

(** [value === "TRUE" || value === "true" || value === true] *)
Definition cell_present (v : option value) : bool :=
  strict_eq_str v "TRUE" || strict_eq_str v "true"
  || match v with Some (VBool true) => true | _ => false end.

(** One element of [attendanceData] as the function builds it. *)
Record person := mkPerson {
  p_name : option value;             (* row[0] *)
  p_attendance : gmap string bool    (* attendance *)
}.

Record sheetData := mkSheetData {
  dates : list value;
  attendanceData : list person
}.

(** [dates.forEach((date, index) => { attendance[date] = ... })], started at
    [index] with the object [attendance]. The map stores every key, as the
    plain object does for every [own_key]. *)
Fixpoint forEach_date (rw : row) (ds : list value) (index : nat)
    (attendance : gmap string bool) : gmap string bool :=
  match ds with
  | [] => attendance
  | date :: ds' =>
      forEach_date rw ds' (S index)
        (<[to_key date := cell_present (rw !! (index + 1))]> attendance)
  end.

Definition row_to_person (ds : list value) (rw : row) : person :=
  {| p_name := rw !! 0; p_attendance := forEach_date rw ds 0 ∅ |}.

(** [getAttendanceDataFromSheet]. The function has no guard of its own: with
    a null client [sheets.spreadsheets] raises a TypeError, and without a
    sheet id or when the service is down [values.get] rejects; all three are
    caught, printed and rethrown. An empty range (no [values], or no rows) is
    the [else] branch. *)
Definition getAttendanceDataFromSheet (a : api) (values : table)
    : outcome sheetData :=
  if client_ok a && sheet_id a && get_ok a then
    match values with
    | headerRow :: rest =>
        let ds := drop 1 headerRow in
        Returned {| dates := ds;
                    attendanceData := map (row_to_person ds) rest |} []
    | [] =>
        Returned {| dates := []; attendanceData := [] |} [LogNoDataFound]
    end
  else Thrown [LogGetError].

(** [exports.getAttendanceData]: status and body of the response. *)
Definition getAttendanceData (a : api) (values : table)
    : nat * option sheetData :=
  match getAttendanceDataFromSheet a values with
  | Returned data _ => (200, Some data)
  | Thrown _ => (500, None)
  end.

(** One entry of [batchUpdateData]: the A1 reference
    [Attendance!<columnLetter><rowIndex + 1>] and the boolean written. *)
Record write := mkWrite {
  w_column_code : nat;  (* char code of columnLetter *)
  w_row_number : nat;   (* 1-based row number *)
  w_value : bool
}.

(** The loop over [attendanceData]: the batch and the printed warnings, in
    order. *)
Fixpoint collect (values : table) (columnLetter : nat)
    (attendanceData : list AttendanceRecord) : list write * list log :=
  match attendanceData with
  | [] => ([], [])
  | record :: more =>
      let '(batch, logs) := collect values columnLetter more in
      match findIndex (λ rw : row, strict_eq_str (rw !! 0) (name record)) values with
      | None => (batch, LogNameNotFound (name record) :: logs)
      | Some rowIndex =>
          (mkWrite columnLetter (rowIndex + 1) (present record) :: batch, logs)
      end
  end.

(** The Sheets side of a write. A reference is accepted when its column
    letter is one of A..Z and its row number is positive. *)
Definition valid_ref (w : write) : bool :=
  (65 <=? w_column_code w)%nat && (w_column_code w <=? 90)%nat
  && (1 <=? w_row_number w)%nat.

(** Storing [v] at column [c] of a row; a row that ends before [c] is
    extended, the cells in between reading as empty text. *)
Definition set_col (rw : row) (c : nat) (v : value) : row :=
  if (c <? length rw)%nat then <[c := v]> rw
  else rw ++ replicate (c - length rw) (VStr "") ++ [v].

Definition write_cell (t : table) (r c : nat) (v : value) : table :=
  alter (λ rw, set_col rw c v) r t.

Definition apply_write (t : table) (w : write) : table :=
  write_cell t (w_row_number w - 1) (w_column_code w - 65) (VBool (w_value w)).

(** [batchUpdate] with [valueInputOption: "RAW"]: the entries are stored in
    order. *)
Definition apply_batch (t : table) (batch : list write) : table :=
  foldl apply_write t batch.

(** [updateAttendanceInSheet]: the boolean returned, what was printed, and
    the sheet afterwards. *)
Definition updateAttendanceInSheet (a : api) (values : table) (date : string)
    (attendanceData : list AttendanceRecord) : bool * list log * table :=
  if negb (client_ok a) then (false, [LogNoClient], values)
  else if negb (sheet_id a) then (false, [LogMissingSheetId], values)
  else if negb (get_ok a) then (false, [LogUpdateError], values)
  else
    match values with
    | [] => (false, [LogNoDataToUpdate], values)
    | headerRow :: _ =>
        match findIndex (λ header, strict_eq_str (Some header) date) headerRow with
        | None => (false, [LogDateNotFound date], values)
        | Some dateColumnIndex =>
            let columnLetter := 65 + dateColumnIndex in
            let '(batchUpdateData, logs) :=
              collect values columnLetter attendanceData in
            if (0 <? length batchUpdateData)%nat then
              if batch_ok a && forallb valid_ref batchUpdateData then
                (true, logs ++ [LogUpdated (length batchUpdateData)],
                 apply_batch values batchUpdateData)
              else (false, logs ++ [LogUpdateError], values)
            else (false, logs ++ [LogNoValidRecords], values)
        end
    end.

(** The body of a POST to [exports.updateAttendance]. *)
Record request := mkRequest {
  req_date : string;
  req_attendance : list AttendanceRecord
}.

(** [exports.updateAttendance]: status of the response and the sheet
    afterwards. An empty [date] is falsy and rejected with 400. *)
Definition updateAttendance (a : api) (values : table) (rq : request)
    : nat * table :=
  if bool_decide (req_date rq = "") then (400, values)
  else
    let '(updated, _, values') :=
      updateAttendanceInSheet a values (req_date rq) (req_attendance rq) in
    if updated then (200, values') else (500, values').

End Sheet.

(** ** The attendance view model ([App.tsx]) *)
Module ViewModel.

(** [interface AttendanceData { name: string; attendance: {[date]: boolean} }] *)
Record AttendanceData := mkData {
  person_name : string;
  attendance : gmap string bool
}.

(** The body of a successful reply of the data endpoint. *)
Record payload := mkPayload {
  dates : list string;
  attendanceData : list AttendanceData
}.

(** The text after "Failed to load attendance data: " or
    "Failed to update attendance: ". *)
Inductive message :=
  | MsgAuthRequired           (* "Access to this function requires authentication..." *)
  | MsgHttpError (status : nat) (* "HTTP error! Status: ..." *)
  | MsgInvalidFormat          (* "Invalid data format received from server" *)
  | MsgRejected               (* fetch itself rejected *)
  | MsgNotJson.               (* the SyntaxError of response.json() *)

(** How a [fetch] ends: the promise rejects, or a response arrives with a
    status and, when its JSON has the expected shape, a body. *)
Inductive fetched (A : Type) :=
  | Rejected
  | Replied (status : nat) (body : option A).
Arguments Rejected {A}.
Arguments Replied {A} status body.

(** [response.ok] *)
Definition ok (status : nat) : bool :=
  (200 <=? status)%nat && (status <=? 299)%nat.

(** The [useState] cells of [App]. *)
Record state := mkState {
  attendanceRecords : list AttendanceRecord;
  loading : bool;
  saving : bool;
  error : option message;
  saveError : option message;
  saveSuccess : bool;
  availableDates : list string;
  selectedDate : string;
  fullAttendanceData : list AttendanceData;
  authRequired : bool
}.

(** The state at mount. *)
Definition initial : state :=
  mkState [] true false None None false [] "" [] false.

Definition setAttendanceRecords (v : list AttendanceRecord) (s : state) :=
  mkState v (loading s) (saving s) (error s) (saveError s) (saveSuccess s)
    (availableDates s) (selectedDate s) (fullAttendanceData s) (authRequired s).
Definition setLoading (v : bool) (s : state) :=
  mkState (attendanceRecords s) v (saving s) (error s) (saveError s)
    (saveSuccess s) (availableDates s) (selectedDate s)
    (fullAttendanceData s) (authRequired s).
Definition setSaving (v : bool) (s : state) :=
  mkState (attendanceRecords s) (loading s) v (error s) (saveError s)
    (saveSuccess s) (availableDates s) (selectedDate s)
    (fullAttendanceData s) (authRequired s).
Definition setError (v : option message) (s : state) :=
  mkState (attendanceRecords s) (loading s) (saving s) v (saveError s)
    (saveSuccess s) (availableDates s) (selectedDate s)
    (fullAttendanceData s) (authRequired s).
Definition setSaveError (v : option message) (s : state) :=
  mkState (attendanceRecords s) (loading s) (saving s) (error s) v
    (saveSuccess s) (availableDates s) (selectedDate s)
    (fullAttendanceData s) (authRequired s).
Definition setSaveSuccess (v : bool) (s : state) :=
  mkState (attendanceRecords s) (loading s) (saving s) (error s)
    (saveError s) v (availableDates s) (selectedDate s)
    (fullAttendanceData s) (authRequired s).
Definition setAvailableDates (v : list string) (s : state) :=
  mkState (attendanceRecords s) (loading s) (saving s) (error s)
    (saveError s) (saveSuccess s) v (selectedDate s)
    (fullAttendanceData s) (authRequired s).
Definition setSelectedDate (v : string) (s : state) :=
  mkState (attendanceRecords s) (loading s) (saving s) (error s)
    (saveError s) (saveSuccess s) (availableDates s) v
    (fullAttendanceData s) (authRequired s).
Definition setFullAttendanceData (v : list AttendanceData) (s : state) :=
  mkState (attendanceRecords s) (loading s) (saving s) (error s)
    (saveError s) (saveSuccess s) (availableDates s) (selectedDate s)
    v (authRequired s).
Definition setAuthRequired (v : bool) (s : state) :=
  mkState (attendanceRecords s) (loading s) (saving s) (error s)
    (saveError s) (saveSuccess s) (availableDates s) (selectedDate s)
    (fullAttendanceData s) v.

(** [item.attendance[date] || false] *)
Definition present_on (date : string) (item : AttendanceData) : bool :=
  match attendance item !! date with
  | Some b => b || false
  | None => false
  end.

(** The record built for one person by [data.map]. *)
Definition record_for (date : string) (item : AttendanceData) : AttendanceRecord :=
  {| name := person_name item; present := present_on date item |}.

Definition updateAttendanceRecordsForDate (date : string)
    (data : list AttendanceData) (s : state) : state :=
  let records := map (record_for date) data in
  setAttendanceRecords records s.

(** [handleAttendanceChange]. The copies [[...attendanceRecords]] and
    [[...fullAttendanceData]] share their elements with the originals, which
    are dropped by the setters; every element was created on its own (by
    [data.map] and by JSON parsing), so the assignment to one element is the
    replacement of that element. Assigning to [updatedRecords[index].present]
    when the element is undefined throws a TypeError: [None]. *)
Definition handleAttendanceChange (index : nat) (checked : bool) (s : state)
    : option state :=
  match attendanceRecords s !! index with
  | None => None
  | Some record =>
      let updatedRecords :=
        <[index := {| name := name record; present := checked |}]>
          (attendanceRecords s) in
      let s1 := setAttendanceRecords updatedRecords s in
      match fullAttendanceData s !! index with
      | Some item =>
          if bool_decide (selectedDate s ≠ "") then
            let updatedFullData :=
              <[index := {| person_name := person_name item;
                            attendance := <[selectedDate s := checked]> (attendance item) |}]>
                (fullAttendanceData s) in
            Some (setFullAttendanceData updatedFullData s1)
          else Some s1
      | None => Some s1
      end
  end.



(** [fetchAttendanceData], given how the GET ended. *)
Definition fetchAttendanceData (r : fetched payload) (s : state) : state :=
  let s0 := setSaveError None (setSaveSuccess false (setError None (setLoading true s))) in
  let s1 :=
    match r with
    | Rejected => setError (Some MsgRejected) s0
    | Replied status body =>
        if negb (ok status) then
          if bool_decide (status = 403) then
            setError (Some MsgAuthRequired) (setAuthRequired true s0)
          else setError (Some (MsgHttpError status)) s0
        else
          match body with
          | Some data =>
              let s2 := setAvailableDates (dates data)
                          (setFullAttendanceData (attendanceData data) s0) in
              match dates data with
              | initialDate :: _ =>
                  updateAttendanceRecordsForDate initialDate (attendanceData data)
                    (setSelectedDate initialDate s2)
              | [] => s2
              end
          | None => setError (Some MsgInvalidFormat) s0
          end
    end in
  setLoading false s1.

(** A reply that makes [fetchAttendanceData] throw: the fetch rejects, the
    status is not a 2xx, or the body lacks the two arrays. *)
Definition failed_fetch (r : fetched payload) : Prop :=
  match r with
  | Rejected => True
  | Replied status body => ok status = false ∨ body = None
  end.

(** The body [saveAttendanceData] posts. *)
Definition updateData (s : state) : Sheet.request :=
  {| Sheet.req_date := selectedDate s;
     Sheet.req_attendance := attendanceRecords s |}.

(** [saveAttendanceData], given how the POST ended. The body of the reply
    is there when [response.json()] resolves; its content is only printed.
    When the body of a 2xx reply is not JSON, [response.json()] rejects and
    the [catch] block sets the save error. *)
Definition saveAttendanceData (r : fetched unit) (s : state) : state :=
  let s0 := setSaveError None (setSaveSuccess false (setSaving true s)) in
  let s1 :=
    match r with
    | Rejected => setSaveError (Some MsgRejected) s0
    | Replied status body =>
        if negb (ok status) then setSaveError (Some (MsgHttpError status)) s0
        else
          match body with
          | Some _ => setSaveSuccess true s0
          | None => setSaveError (Some MsgNotJson) s0
          end
    end in
  setSaving false s1.

End ViewModel.

(** ** Client and Cloud Functions together *)
Module App.
Import ViewModel.

(** A name or a date key crosses the wire as itself; the view model is typed
    for text, so the reply has a body in this model when every name and
    every date key of the sheet is text. *)
Definition json_text (v : option value) : option string :=
  match v with
  | Some (VStr s) => Some s
  | _ => None
  end.

Definition json_person (p : Sheet.person) : option AttendanceData :=
  n ← json_text (Sheet.p_name p);
  Some {| person_name := n; attendance := Sheet.p_attendance p |}.

Definition json_payload (d : Sheet.sheetData) : option payload :=
  ds ← mapM (λ v, json_text (Some v)) (Sheet.dates d);
  ps ← mapM json_person (Sheet.attendanceData d);
  Some {| dates := ds; attendanceData := ps |}.

(** [loadAll]: the GET served by [exports.getAttendanceData] from the sheet
    [values], then [fetchAttendanceData] on its reply. [None] when the reply
    is outside the typed model. *)
Definition loadAll (a : Sheet.api) (values : table) (s : state)
    : option state :=
  match Sheet.getAttendanceData a values with
  | (status, Some d) =>
      p ← json_payload d;
      Some (fetchAttendanceData (Replied status (Some p)) s)
  | (status, None) => Some (fetchAttendanceData (Replied status None) s)
  end.

(** [save]: the POST served by [exports.updateAttendance], then the state
    [saveAttendanceData] leaves; the sheet afterwards comes second. *)
Definition save (a : Sheet.api) (values : table) (s : state)
    : state * table :=
  let '(status, values') := Sheet.updateAttendance a values (updateData s) in
  (saveAttendanceData (Replied status (Some ())) s, values').

Definition load_then_save (a1 a2 : Sheet.api) (values : table)
    (s : state) : option (state * table) :=
  s1 ← loadAll a1 values s;
  Some (save a2 values s1).

(** [t'] differs from [t] at most in column B below the header, and a cell
    that differs holds the boolean its former content is read as. *)
Definition reread (t t' : table) : Prop :=
  ∀ r c, Sheet.cell t' r c = Sheet.cell t r c
         ∨ (c = 1 ∧ 1 ≤ r
            ∧ Sheet.cell t' r c
              = Some (VBool (Sheet.cell_present (Sheet.cell t r 1)))).

(** A batch entry that stores, in column B of a row below the header, the
    boolean the cell is read as. *)
Definition rereads (t : table) (w : Sheet.write) : Prop :=
  Sheet.w_column_code w = 65 + 1
  ∧ ∃ r rw, Sheet.w_row_number w = r + 1 ∧ 1 ≤ r ∧ t !! r = Some rw
            ∧ 1 ≤ length rw
            ∧ Sheet.w_value w = Sheet.cell_present (rw !! 1).

End App.

(** ** The authorization gate ([auth-config.ts], [UserManagement.tsx]) *)
Module Auth.

(** A document of the [authorized_users] collection. *)
Record doc := mkDoc {
  doc_id : string;
  doc_email : string;
  doc_addedBy : string;
  doc_addedAt : Z
}.

(** Whether the Firestore calls resolve. *)
Record firestore := mkFirestore {
  getDocs_ok : bool;
  deleteDoc_ok : bool
}.

(** The module-level variables [cachedAuthorizedEmails] and [lastFetchTime]. *)
Record cache := mkCache {
  cachedAuthorizedEmails : list string;
  lastFetchTime : Z
}.

Definition module_init : cache := mkCache [] 0.

Definition CACHE_DURATION : Z := 1000 * 60 * 10.

(** [getAuthorizedEmails] at time [now] ([Date.now()]): the list returned
    and the cache afterwards. *)
Definition getAuthorizedEmails (now : Z) (fs : firestore) (users : list doc)
    (c : cache) : list string * cache :=
  if (0 <? length (cachedAuthorizedEmails c))%nat
     && (now - lastFetchTime c <? CACHE_DURATION)%Z
  then (cachedAuthorizedEmails c, c)
  else if getDocs_ok fs then
    let emails := map (λ d, toLowerCase (doc_email d)) users in
    (emails, {| cachedAuthorizedEmails := emails; lastFetchTime := now |})
  else ([], c).

(** [isUserAuthorized]; [None] is a null email. *)
Definition isUserAuthorized (now : Z) (fs : firestore) (users : list doc)
    (c : cache) (email : option string) : bool * cache :=
  match email with
  | None => (false, c)
  | Some e =>
      if bool_decide (e = "") then (false, c)
      else
        let '(authorizedEmails, c') := getAuthorizedEmails now fs users c in
        (bool_decide (toLowerCase e ∈ authorizedEmails), c')
  end.

(** [removeAuthorizedEmail]: the boolean returned, the collection and the
    cache afterwards. *)
Definition removeAuthorizedEmail (fs : firestore) (email : string)
    (users : list doc) (c : cache) : bool * list doc * cache :=
  if getDocs_ok fs then
    match filter (λ d, doc_email d = toLowerCase email) users with
    | [] => (false, users, c)
    | found :: _ =>
        if deleteDoc_ok fs then
          (true, filter (λ d, doc_id d ≠ doc_id found) users, mkCache [] 0)
        else (false, users, c)
    end
  else (false, users, c).

(** What the component shows in its alert. *)
Inductive notice :=
  | CannotRemoveSelf    (* "You cannot remove your own email from the authorized list." *)
  | FailedToRemove (email : string) (* "Failed to remove ... Please try again." *)
  | FailedToLoad.       (* "Failed to load authorized emails. Please try again." *)

(** The [useState] cells of [UserManagement] the two handlers below touch. *)
Record ui := mkUi {
  authorizedEmails : list string;
  loading : bool;
  error : option notice;
  isRemoving : option string;
  removeSuccess : bool
}.

(** [loadAuthorizedEmails] *)
Definition loadAuthorizedEmails (now : Z) (fs : firestore) (users : list doc)
    (c : cache) (u : ui) : ui * cache :=
  let '(emails, c') := getAuthorizedEmails now fs users c in
  (mkUi emails false None (isRemoving u) (removeSuccess u), c').

(** [handleRemoveEmail] of a component mounted with [currentUserEmail],
    followed to the end of the reload it starts on success. *)
Definition handleRemoveEmail (currentUserEmail : string) (now : Z)
    (fs : firestore) (email : string) (users : list doc) (c : cache) (u : ui)
    : ui * list doc * cache :=
  if bool_decide (email = currentUserEmail) then
    (mkUi (authorizedEmails u) (loading u) (Some CannotRemoveSelf)
       (isRemoving u) (removeSuccess u), users, c)
  else
    let '(success, users', c') := removeAuthorizedEmail fs email users c in
    if success then
      let u1 := mkUi (authorizedEmails u) (loading u) None (Some email) true in
      let '(u2, c'') := loadAuthorizedEmails now fs users' c' u1 in
      (mkUi (authorizedEmails u2) (loading u2) (error u2) None (removeSuccess u2),
       users', c'')
    else
      (mkUi (authorizedEmails u) (loading u) (Some (FailedToRemove email))
         None false, users', c').

End Auth.

(** ** Date display ([formatDateForDisplay]) *)
Module DateDisplay.

(** The result of a library call: a value, or an exception. *)
Inductive result (A : Type) :=
  | Ok (a : A)
  | Throw.
Arguments Ok {A} a.
Arguments Throw {A}.

Section WithDateFns.
(** The two functions imported from date-fns, over its dates. *)
Variable Date : Type.
Variable parse : string → string → Date → result Date.
Variable format : Date → string → result string.

(** [formatDateForDisplay], evaluated when [new Date()] is [now]. *)
Definition formatDateForDisplay (now : Date) (dateString : string) : string :=
  match parse dateString "M/d/yyyy" now with
  | Ok date =>
      match format date "MMMM d, yyyy" with
      | Ok text => text
      | Throw => dateString
      end
  | Throw => dateString
  end.
End WithDateFns.

(** *** A model of the two date-fns calls *)

(** A JavaScript [Date] reduced to its calendar day; [InvalidDate] is the
    date whose time value is NaN. *)
Inductive jsdate :=
  | Day (year month day : nat)
  | InvalidDate.

Definition digit (c : ascii) : option nat :=
  let n := nat_of_ascii c in
  if (48 <=? n)%nat && (n <=? 57)%nat then Some (n - 48) else None.

(** [/^(1[0-2]|0?\d)/], the pattern of the token [M]. *)
Definition month_pattern (s : string) : option (nat * string) :=
  match s with
  | String a (String b rest) =>
      match digit a, digit b with
      | Some 1, Some y => if (y <=? 2)%nat then Some (10 + y, rest)
                          else Some (1, String b rest)
      | Some 0, Some y => Some (y, rest)
      | Some x, _ => Some (x, String b rest)
      | None, _ => None
      end
  | String a EmptyString => x ← digit a; Some (x, EmptyString)
  | EmptyString => None
  end.

(** [/^(3[0-1]|[0-2]?\d)/], the pattern of the token [d]. *)
Definition date_pattern (s : string) : option (nat * string) :=
  match s with
  | String a (String b rest) =>
      match digit a, digit b with
      | Some x, Some y =>
          if (x <=? 2)%nat then Some (10 * x + y, rest)
          else if (x =? 3)%nat && (y <=? 1)%nat then Some (30 + y, rest)
          else Some (x, String b rest)
      | Some x, None => Some (x, String b rest)
      | None, _ => None
      end
  | String a EmptyString => x ← digit a; Some (x, EmptyString)
  | EmptyString => None
  end.

(** At most [n] further digits after the value [acc]. *)
Fixpoint more_digits (n acc : nat) (s : string) : nat * string :=
  match n, s with
  | S n', String a rest =>
      match digit a with
      | Some x => more_digits n' (10 * acc + x) rest
      | None => (acc, s)
      end
  | _, _ => (acc, s)
  end.

(** [/^\d{1,4}/], the pattern of the token [yyyy]. *)
Definition year_pattern (s : string) : option (nat * string) :=
  match s with
  | String a rest => x ← digit a; Some (more_digits 3 x rest)
  | EmptyString => None
  end.

Definition slash (s : string) : option string :=
  match s with
  | String "/" rest => Some rest
  | _ => None
  end.

Fixpoint only_whitespace (s : string) : bool :=
  match s with
  | EmptyString => true
  | String c rest =>
      let n := nat_of_ascii c in
      ((n =? 32)%nat || ((9 <=? n)%nat && (n <=? 13)%nat)) && only_whitespace rest
  end.

Definition leap (y : nat) : bool :=
  ((y mod 400 =? 0) || ((y mod 4 =? 0) && negb (y mod 100 =? 0)))%nat.

Definition days_in_month (y m : nat) : nat :=
  match m with
  | 2 => if leap y then 29 else 28
  | 4 | 6 | 9 | 11 => 30
  | _ => 31
  end.

(** Modelled from the spec: date-fns is not among the sources; this is its
    [parse] for the format string ["M/d/yyyy"], which reads a month, a day
    and a year of up to four digits separated by slashes, checks them
    against the calendar and answers Invalid Date for anything else. The
    reference date only supplies units the format string lacks, and this
    one lacks none down to the day. *)
Definition datefns_parse (dateString formatString : string) (reference : jsdate)
    : result jsdate :=
  if bool_decide (formatString = "M/d/yyyy") then
    Ok (default InvalidDate
          ('(m, s1) ← month_pattern dateString;
           s2 ← slash s1;
           '(d, s3) ← date_pattern s2;
           s4 ← slash s3;
           '(y, s5) ← year_pattern s4;
           if only_whitespace s5 && (1 <=? y)%nat && (1 <=? m)%nat && (m <=? 12)%nat
              && (1 <=? d)%nat && (d <=? days_in_month y m)%nat
           then Some (Day y m d) else None))
  else Throw.

Definition month_name (m : nat) : string :=
  match m with
  | 1 => "January" | 2 => "February" | 3 => "March" | 4 => "April"
  | 5 => "May" | 6 => "June" | 7 => "July" | 8 => "August"
  | 9 => "September" | 10 => "October" | 11 => "November" | _ => "December"
  end.

Definition decimal (n : nat) : string :=
  NilEmpty.string_of_uint (Nat.to_uint n).

Fixpoint zeros (n : nat) : string :=
  match n with
  | O => EmptyString
  | S n' => String "0" (zeros n')
  end.

(** [addLeadingZeros(n, 4)] *)
Definition four_digits (n : nat) : string :=
  let s := decimal n in
  (zeros (4 - String.length s) +:+ s)%string.

(** Modelled from the spec: date-fns is not among the sources; this is its
    [format] for the format string ["MMMM d, yyyy"]: the month's English
    name, the day, a comma and the year, and a RangeError on Invalid Date. *)
Definition datefns_format (date : jsdate) (formatString : string)
    : result string :=
  if bool_decide (formatString = "MMMM d, yyyy") then
    match date with
    | Day y m d =>
        Ok (month_name m +:+ " " +:+ decimal d +:+ ", " +:+ four_digits y)%string
    | InvalidDate => Throw
    end
  else Throw.

Definition is_valid (date : jsdate) : bool :=
  match date with Day _ _ _ => true | InvalidDate => false end.

End DateDisplay.

(** ** Sample data *)
Module Sample.
Import ViewModel.

Definition service_up : Sheet.api := Sheet.mkApi true true true true.

(** The scenario of the specification: two dates, one person, absent on the
    first date, which is the selected one. *)
Definition jane : AttendanceData :=
  {| person_name := "Smith, Jane"; attendance := {[ "7/20/2025" := false ]} |}.

Definition loaded : state :=
  fetchAttendanceData
    (Replied 200 (Some {| dates := ["7/20/2025"; "7/13/2025"];
                          attendanceData := [jane] |}))
    initial.

Definition sheet : table :=
  [ [VStr "Name"; VStr "7/20/2025"; VStr "7/13/2025"];
    [VStr "Smith, Jane"; VBool false; VStr "TRUE"];
    [VStr "Doe, John"; VStr "true"] ].

Definition me : Auth.doc := Auth.mkDoc "doc1" "me@example.org" "admin@example.org" 0.
Definition other : Auth.doc := Auth.mkDoc "doc2" "you@example.org" "me@example.org" 5.

End Sample.

(** ** A session with the view model *)
Module Session.
Import ViewModel.

(** The view shows the matrix at the selected date. *)
Definition consistent (s : state) : Prop :=
  attendanceRecords s = map (record_for (selectedDate s)) (fullAttendanceData s).

(** A click on row [index] of the rendered list:
    [onClick={() => handleAttendanceChange(index, !record.present)}], where
    [record] is the element the row was rendered from. [None] also when the
    list has no such row. *)
Definition clickRow (index : nat) (s : state) : option state :=
  match attendanceRecords s !! index with
  | Some record => handleAttendanceChange index (negb (present record)) s
  | None => None
  end.

(** Checkbox changes one after the other; [None] when one of them throws. *)
Fixpoint toggles (ts : list (nat * bool)) (s : state) : option state :=
  match ts with
  | [] => Some s
  | (index, checked) :: ts' =>
      s' ← handleAttendanceChange index checked s; toggles ts' s'
  end.

(** Two people loaded, the first of two dates selected. *)
Definition john : AttendanceData :=
  {| person_name := "Doe, John";
     attendance := {[ "7/20/2025" := true; "7/13/2025" := false ]} |}.

Definition two_people : state :=
  fetchAttendanceData
    (Replied 200 (Some {| dates := ["7/20/2025"; "7/13/2025"];
                          attendanceData := [Sample.jane; john] |}))
    initial.

(** The sample state after a refresh whose reply has no dates and no
    people: the view and the selected date are kept, the matrix is empty. *)
Definition after_empty_refresh : state :=
  fetchAttendanceData
    (Replied 200 (Some {| dates := []; attendanceData := [] |}))
    Sample.loaded.

End Session.

(** ** Administration of the whitelist ([auth-config.ts], [UserManagement.tsx]) *)
Module AuthAdmin.
Import Auth.

(** [addAuthorizedEmail]: the boolean returned, the collection and the cache
    afterwards. [addDoc_ok] tells whether [addDoc] resolves, [id] is the
    identifier Firestore gives the new document and [now] is [new Date()]. *)
Definition addAuthorizedEmail (fs : firestore) (addDoc_ok : bool) (id : string)
    (now : Z) (email addedBy : string) (users : list doc) (c : cache)
    : bool * list doc * cache :=
  if bool_decide (email = "") then (false, users, c)
  else if getDocs_ok fs then
    match filter (λ d, doc_email d = toLowerCase email) users with
    | _ :: _ => (false, users, c)
    | [] =>
        if addDoc_ok then
          (true, users ++ [mkDoc id (toLowerCase email) addedBy now], mkCache [] 0)
        else (false, users, c)
    end
  else (false, users, c).

(** What the two operations keep: stored addresses are lower case and
    pairwise distinct, and document identifiers are pairwise distinct. *)
Definition store_ok (users : list doc) : Prop :=
  Forall (λ d, toLowerCase (doc_email d) = doc_email d) users
  ∧ NoDup (map doc_email users)
  ∧ NoDup (map doc_id users).

(** What the alert of the component can hold. *)
Inductive alert :=
  | Notice (n : notice)
  | MayAlreadyBeAuthorized (email : string) (* "Failed to add ... It may already be authorized." *)
  | FailedToAdd (email : string).           (* "Failed to add ... Please try again." *)

(** All [useState] cells of [UserManagement]. *)
Record panel := mkPanel {
  authorizedEmails : list string;
  loading : bool;
  error : option alert;
  newEmail : string;
  isAdding : bool;
  isRemoving : option string;
  addSuccess : bool;
  removeSuccess : bool
}.

(** [!newEmail.trim()] on ASCII text: nothing but white space. *)
Definition blank (s : string) : bool := DateDisplay.only_whitespace s.

(** [handleAddEmail] of a component mounted with [currentUserEmail],
    followed to the end of the reload it starts on success; [added] is
    [new Date()] in [addAuthorizedEmail] and [now] is [Date.now()] in the
    reload. *)
Definition handleAddEmail (currentUserEmail : string) (fs : firestore)
    (addDoc_ok : bool) (id : string) (added now : Z) (users : list doc)
    (c : cache) (p : panel) : panel * list doc * cache :=
  if blank (newEmail p) then (p, users, c)
  else
    let '(success, users', c') :=
      addAuthorizedEmail fs addDoc_ok id added (newEmail p) currentUserEmail
        users c in
    if success then
      let '(emails, c'') := getAuthorizedEmails now fs users' c' in
      ({| authorizedEmails := emails; loading := false; error := None;
          newEmail := ""; isAdding := false; isRemoving := isRemoving p;
          addSuccess := true; removeSuccess := removeSuccess p |},
       users', c'')
    else
      ({| authorizedEmails := authorizedEmails p; loading := loading p;
          error := Some (MayAlreadyBeAuthorized (newEmail p));
          newEmail := newEmail p; isAdding := false;
          isRemoving := isRemoving p; addSuccess := false;
          removeSuccess := removeSuccess p |},
       users', c').

End AuthAdmin.

(** ** The sign-in gate of the authenticated app *)
Module Gate.
Import Auth.

Inductive gate_error :=
  | NotAuthorized   (* "You are not authorized to access this application." *)
  | CheckFailed.    (* "Error checking authorization. Please try again later." *)

(** The authentication cells of [App]; a signed-in user is reduced to the
    [email] of the Firebase [User], which may be null. *)
Record cells := mkCells {
  user : option (option string);
  authLoading : bool;
  authError : option gate_error;
  isAuthorized : bool
}.

(** What one run of the listener calls besides the setters. *)
Record calls := mkCalls {
  fetchAttendanceData_called : bool;
  signOut_called : bool
}.

(** The listener passed to [auth.onAuthStateChanged], for one change of the
    signed-in user. [fetchAttendanceData] catches its own errors;
    [signOut_ok] tells whether [signOut] resolves. *)
Definition onAuthStateChanged (currentUser : option (option string)) (now : Z)
    (fs : firestore) (signOut_ok : bool) (users : list doc) (c : cache)
    (g : cells) : cells * cache * calls :=
  match currentUser with
  | None =>
      (mkCells None false (authError g) (isAuthorized g), c, mkCalls false false)
  | Some email =>
      let '(authorized, c') := isUserAuthorized now fs users c email in
      if authorized then
        (mkCells currentUser false (authError g) true, c', mkCalls true false)
      else if signOut_ok then
        (mkCells currentUser false (Some NotAuthorized) false, c',
         mkCalls false true)
      else
        (mkCells currentUser false (Some CheckFailed) false, c',
         mkCalls false true)
  end.

End Gate.

(** * Properties *)

(** ** [findIndex] and strict equality *)

Lemma strict_eq_str_true x s : strict_eq_str x s = true ↔ x = Some (VStr s).
Proof.
  destruct x as [[t|b]|]; simpl; try (split; [done | congruence]).
  rewrite bool_decide_eq_true. split; [by intros -> | congruence].
Qed.

Lemma strict_eq_str_refl s : strict_eq_str (Some (VStr s)) s = true.
Proof. by apply strict_eq_str_true. Qed.

Lemma findIndex_None {A} (p : A → bool) l :
  findIndex p l = None ↔ ∀ x, x ∈ l → p x = false.
Proof.
  induction l as [|y l IH]; simpl.
  - split; [intros _ x Hx; by apply elem_of_nil in Hx | done].
  - destruct (p y) eqn:Hy.
    + split; [done |]. intros H. specialize (H y (list_elem_of_here _ _)). congruence.
    + rewrite fmap_None, IH. split.
      * intros H x [->|Hx]%elem_of_cons; auto.
      * intros H x Hx. apply H. by right.
Qed.

Lemma findIndex_Some {A} (p : A → bool) l i :
  findIndex p l = Some i ↔
  (∃ x, l !! i = Some x ∧ p x = true) ∧
  (∀ j y, j < i → l !! j = Some y → p y = false).
Proof.
  revert i. induction l as [|y l IH]; intros i; simpl.
  - split; [done | by intros [(x & Hx & _) _]].
  - destruct (p y) eqn:Hy.
    + split.
      * intros [= <-]. split; [by exists y | intros j z Hj; lia].
      * intros [(x & Hx & Hpx) Hlt]. destruct i as [|i]; [done |].
        specialize (Hlt 0 y ltac:(lia) eq_refl). congruence.
    + rewrite fmap_Some. split.
      * intros (i' & Hi' & ->). apply IH in Hi' as [Hex Hlt]. split; [done |].
        intros [|j] z Hj; simpl; [by intros [= <-] | apply Hlt; lia].
      * intros [(x & Hx & Hpx) Hlt]. destruct i as [|i]; simpl in *.
        { congruence. }
        exists i. split; [| done]. apply IH. split; [by exists x |].
        intros j z Hj Hz. apply (Hlt (S j) z); [lia | done].
Qed.

Lemma findIndex_lt {A} (p : A → bool) l i :
  findIndex p l = Some i → i < length l.
Proof.
  intros [(x & Hx & _) _]%findIndex_Some. by eapply lookup_lt_Some.
Qed.

(** ** Cells of a written sheet *)

Lemma cell_write_cell t r c v r' c' rw :
  t !! r = Some rw → c ≤ length rw →
  Sheet.cell (Sheet.write_cell t r c v) r' c' =
  if bool_decide (r' = r ∧ c' = c) then Some v else Sheet.cell t r' c'.
Proof.
  intros Hr Hc. unfold Sheet.cell, Sheet.write_cell.
  destruct (decide (r' = r)) as [->|Hne].
  - rewrite list_lookup_alter_eq, Hr. simpl. unfold Sheet.set_col.
    destruct (c <? length rw)%nat eqn:Hlt.
    + apply Nat.ltb_lt in Hlt. case_bool_decide as Hd.
      * destruct Hd as [_ ->]. by apply list_lookup_insert_eq.
      * apply list_lookup_insert_ne. naive_solver.
    + apply Nat.ltb_ge in Hlt. assert (c = length rw) as -> by lia.
      rewrite Nat.sub_diag. simpl. case_bool_decide as Hd.
      * destruct Hd as [_ ->]. by rewrite lookup_app_r, Nat.sub_diag.
      * destruct (decide (c' < length rw)).
        { by rewrite lookup_app_l. }
        rewrite lookup_app_r by lia.
        destruct (c' - length rw) as [|k] eqn:Hk;
          [exfalso; apply Hd; split; [done | lia] |].
        simpl. symmetry. apply lookup_ge_None. lia.
  - rewrite list_lookup_alter_ne by done.
    rewrite bool_decide_eq_false_2; [done | by intros [? _]].
Qed.

Lemma write_cell_length t r c v :
  length (Sheet.write_cell t r c v) = length t.
Proof. apply length_alter. Qed.

(** ** Updating a date *)

Lemma header_lacks_date (headerRow : row) date :
  VStr date ∉ headerRow →
  findIndex (λ header, strict_eq_str (Some header) date) headerRow = None.
Proof.
  intros Hnot. apply findIndex_None. intros x Hx.
  destruct (strict_eq_str (Some x) date) eqn:E; [| done].
  apply strict_eq_str_true in E as [= ->]. done.
Qed.

(** C4, as the code has it. When the requested date equals none of the
    header cells (as text, character for character),
    [updateAttendanceInSheet] returns a plain [false] and leaves the sheet
    as it was, whatever the state of the service; when the service answers
    and the sheet has a header, what it prints is the "date not found"
    error, and the endpoint replies 500 with the sheet untouched. *)
Theorem update_absent_date_fails_without_writes :
  ∀ (a : Sheet.api) (headerRow : row) (rest : table)
    (date : string) (records : list AttendanceRecord),
    VStr date ∉ headerRow →
    (∃ logs, Sheet.updateAttendanceInSheet a (headerRow :: rest) date records
             = (false, logs, headerRow :: rest)) ∧
    (Sheet.client_ok a = true → Sheet.sheet_id a = true → Sheet.get_ok a = true →
     Sheet.updateAttendanceInSheet a (headerRow :: rest) date records
     = (false, [LogDateNotFound date], headerRow :: rest)) ∧
    (date ≠ "" →
     Sheet.updateAttendance a (headerRow :: rest) (Sheet.mkRequest date records)
     = (500, headerRow :: rest)).
Proof.
  intros a headerRow rest date records Hnot.
  pose proof (header_lacks_date _ _ Hnot) as Hfind.
  assert (∃ logs, Sheet.updateAttendanceInSheet a (headerRow :: rest) date records
                  = (false, logs, headerRow :: rest)) as Hfail.
  { unfold Sheet.updateAttendanceInSheet.
    destruct (Sheet.client_ok a); cbn [negb]; [| by eexists].
    destruct (Sheet.sheet_id a); cbn [negb]; [| by eexists].
    destruct (Sheet.get_ok a); cbn [negb]; [| by eexists].
    rewrite Hfind. by eexists. }
  split; [done |]. split.
  - intros Hc Hs Hg. unfold Sheet.updateAttendanceInSheet.
    rewrite Hc, Hs, Hg. cbn [negb]. by rewrite Hfind.
  - intros Hdate. destruct Hfail as [logs Hfail].
    unfold Sheet.updateAttendance. cbn [Sheet.req_date Sheet.req_attendance].
    rewrite bool_decide_eq_false_2 by done. by rewrite Hfail.
Qed.

Lemma update_absent_date_fails_without_writes_witness :
  let headerRow := [VStr "Name"; VStr "7/20/2025"] in
  let rest := [[VStr "Smith, Jane"; VBool false]] in
  Sheet.updateAttendanceInSheet (Sheet.mkApi true true true true)
    (headerRow :: rest) "07/20/2025" [mkRecord "Smith, Jane" true]
  = (false, [LogDateNotFound "07/20/2025"], headerRow :: rest).
Proof.
  intros headerRow rest.
  refine (proj1 (proj2 (update_absent_date_fails_without_writes
            (Sheet.mkApi true true true true) headerRow rest "07/20/2025"
            [mkRecord "Smith, Jane" true] _)) eq_refl eq_refl eq_refl).
  unfold headerRow. intros H. apply list_elem_of_In in H. simpl in H.
  destruct H as [H|[H|[]]]; discriminate H.
Defined.

(** C4 as specified does not hold: no distinguished error reaches the
    caller. For a date that is not in the header the function returns the
    same [false], and the endpoint the same status 500, as for a request
    whose names are not in the sheet and as when the sheet cannot be read;
    only the printed line tells them apart. *)
Lemma absent_date_fails_like_other_failures :
  Sheet.updateAttendanceInSheet Sample.service_up Sample.sheet "07/20/2025"
    [mkRecord "Smith, Jane" true]
  = (false, [LogDateNotFound "07/20/2025"], Sample.sheet)
  ∧ Sheet.updateAttendanceInSheet Sample.service_up Sample.sheet "7/20/2025"
      [mkRecord "Nobody" true]
    = (false, [LogNameNotFound "Nobody"; LogNoValidRecords], Sample.sheet)
  ∧ Sheet.updateAttendanceInSheet (Sheet.mkApi true true false true)
      Sample.sheet "7/20/2025" [mkRecord "Smith, Jane" true]
    = (false, [LogUpdateError], Sample.sheet)
  ∧ Sheet.updateAttendance Sample.service_up Sample.sheet
      (Sheet.mkRequest "07/20/2025" [mkRecord "Smith, Jane" true])
    = (500, Sample.sheet)
  ∧ Sheet.updateAttendance Sample.service_up Sample.sheet
      (Sheet.mkRequest "7/20/2025" [mkRecord "Nobody" true])
    = (500, Sample.sheet)
  ∧ Sheet.updateAttendance (Sheet.mkApi true true false true) Sample.sheet
      (Sheet.mkRequest "7/20/2025" [mkRecord "Smith, Jane" true])
    = (500, Sample.sheet).
Proof. by repeat split. Qed.

Lemma findIndex_first_match (values : table) (n : string) r rw :
  values !! r = Some rw →
  rw !! 0 = Some (VStr n) →
  (∀ j rw', j < r → values !! j = Some rw' → rw' !! 0 ≠ Some (VStr n)) →
  findIndex (λ rw : row, strict_eq_str (rw !! 0) n) values = Some r.
Proof.
  intros Hr Hrw Hfirst. apply findIndex_Some. split.
  - exists rw. split; [done |]. by apply strict_eq_str_true.
  - intros j rw' Hj Hrw'.
    destruct (strict_eq_str (rw' !! 0) n) eqn:E; [| done].
    apply strict_eq_str_true in E. by destruct (Hfirst j rw' Hj Hrw').
Qed.

Lemma findIndex_header_date (headerRow : row) date c :
  headerRow !! c = Some (VStr date) →
  (∀ j, j < c → headerRow !! j ≠ Some (VStr date)) →
  findIndex (λ header, strict_eq_str (Some header) date) headerRow = Some c.
Proof.
  intros Hc Hfirst. apply findIndex_Some. split.
  - exists (VStr date). split; [done |]. apply strict_eq_str_refl.
  - intros j y Hj Hy.
    destruct (strict_eq_str (Some y) date) eqn:E; [| done].
    apply strict_eq_str_true in E as [= ->]. by destruct (Hfirst j Hj).
Qed.

Lemma valid_ref_located c r b :
  c < 26 → Sheet.valid_ref (Sheet.mkWrite (65 + c) (r + 1) b) = true.
Proof.
  intros Hc. unfold Sheet.valid_ref.
  cbn [Sheet.w_column_code Sheet.w_row_number].
  rewrite !andb_true_iff, !Nat.leb_le. lia.
Qed.

Lemma apply_write_located (t : table) c r b :
  Sheet.apply_write t (Sheet.mkWrite (65 + c) (r + 1) b)
  = Sheet.write_cell t r c (VBool b).
Proof.
  unfold Sheet.apply_write. cbn [Sheet.w_column_code Sheet.w_row_number Sheet.w_value].
  f_equal; lia.
Qed.

(** C10. The row a record is written to is the first row of the whole range,
    header row included, whose first cell is the record's name; so a record
    named like the header's first cell is written into the header row, where
    it replaces the header cell of the requested date. *)
Theorem update_name_search_includes_header :
  (∀ (values : table) (columnLetter : nat) (record : AttendanceRecord)
     (r : nat) (rw : row),
     values !! r = Some rw →
     rw !! 0 = Some (VStr (name record)) →
     (∀ j rw', j < r → values !! j = Some rw' →
               rw' !! 0 ≠ Some (VStr (name record))) →
     Sheet.collect values columnLetter [record]
     = ([Sheet.mkWrite columnLetter (r + 1) (present record)], [])) ∧
  (∀ (headerRow : row) (rest : table) (date label : string) (c : nat)
     (checked : bool),
     headerRow !! 0 = Some (VStr label) →
     headerRow !! c = Some (VStr date) →
     (∀ j, j < c → headerRow !! j ≠ Some (VStr date)) →
     c < 26 →
     Sheet.updateAttendanceInSheet (Sheet.mkApi true true true true)
       (headerRow :: rest) date [mkRecord label checked]
     = (true, [LogUpdated 1], <[c := VBool checked]> headerRow :: rest)).
Proof.
  split.
  - intros values columnLetter record r rw Hr Hrw Hfirst.
    cbn [Sheet.collect].
    by rewrite (findIndex_first_match values (name record) r rw).
  - intros headerRow rest date label c checked Hlabel Hc Hfirst Hlt.
    unfold Sheet.updateAttendanceInSheet. cbn [Sheet.client_ok Sheet.sheet_id
      Sheet.get_ok Sheet.batch_ok negb].
    rewrite (findIndex_header_date headerRow date c Hc Hfirst).
    cbn [Sheet.collect name present].
    rewrite (findIndex_first_match (headerRow :: rest) label 0 headerRow eq_refl Hlabel)
      by (intros j rw' Hj; lia).
    cbn [length app forallb]. change (0 <? 1) with true. cbn iota.
    rewrite (valid_ref_located c 0 checked Hlt).
    cbn [andb Sheet.apply_batch foldl].
    unfold Sheet.apply_batch. cbn [foldl].
    rewrite (apply_write_located _ c 0 checked).
    unfold Sheet.write_cell. simpl alter. unfold Sheet.set_col.
    assert ((c <? length headerRow) = true) as ->; [| done].
    apply Nat.ltb_lt. by eapply lookup_lt_Some.
Qed.

Lemma update_name_search_includes_header_witness :
  Sheet.updateAttendanceInSheet (Sheet.mkApi true true true true)
    [ [VStr "Name"; VStr "7/20/2025"]; [VStr "Smith, Jane"; VBool false] ]
    "7/20/2025" [mkRecord "Name" true]
  = (true, [LogUpdated 1],
     [ [VStr "Name"; VBool true]; [VStr "Smith, Jane"; VBool false] ]).
Proof.
  refine (proj2 update_name_search_includes_header
            [VStr "Name"; VStr "7/20/2025"] [[VStr "Smith, Jane"; VBool false]]
            "7/20/2025" "Name" 1 true eq_refl eq_refl _ _).
  - intros j Hj. assert (j = 0) as -> by lia. discriminate.
  - lia.
Defined.

(** ** Reading the sheet *)

Lemma cell_present_true (v : option value) :
  Sheet.cell_present v = true ↔
  v = Some (VBool true) ∨ v = Some (VStr "TRUE") ∨ v = Some (VStr "true").
Proof.
  unfold Sheet.cell_present. rewrite !orb_true_iff, !strict_eq_str_true.
  split.
  - intros [[H|H]|H]; auto. destruct v as [[?|[]]|]; auto; discriminate.
  - intros [->|[H|H]]; auto.
Qed.

Lemma forEach_date_other (rw : row) ds index att (key : string) :
  (∀ date, date ∈ ds → to_key date ≠ key) →
  Sheet.forEach_date rw ds index att !! key = att !! key.
Proof.
  revert index att. induction ds as [|d ds IH]; intros index att Hnot; [done |].
  cbn [Sheet.forEach_date]. rewrite IH.
  - apply lookup_insert_ne. apply Hnot. by left.
  - intros date Hd. apply Hnot. by right.
Qed.

Lemma forEach_date_lookup (rw : row) ds index att j date :
  ds !! j = Some date →
  (∀ j' date', j < j' → ds !! j' = Some date' → to_key date' ≠ to_key date) →
  Sheet.forEach_date rw ds index att !! to_key date
  = Some (Sheet.cell_present (rw !! (index + j + 1))).
Proof.
  revert index att j. induction ds as [|d ds IH]; intros index att j Hj Hlast;
    [done |].
  cbn [Sheet.forEach_date]. destruct j as [|j]; simpl in Hj.
  - injection Hj as ->. rewrite forEach_date_other.
    + rewrite lookup_insert_eq. do 3 f_equal. lia.
    + intros date' [j' Hj']%list_elem_of_lookup.
      apply (Hlast (S j') date'); [lia | done].
  - rewrite (IH (S index) _ j Hj).
    + do 3 f_equal. lia.
    + intros j' date' Hlt Hj'. apply (Hlast (S j') date'); [lia | done].
Qed.

Lemma last_column_of_key (ds : list value) j date :
  ds !! j = Some date →
  ∃ j' date',
    j ≤ j' ∧ ds !! j' = Some date' ∧ to_key date' = to_key date
    ∧ ∀ j'' date'', j' < j'' → ds !! j'' = Some date'' →
                    to_key date'' ≠ to_key date.
Proof.
  revert j date. induction ds as [|d ds IH]; intros j date Hj; [done |].
  destruct j as [|j]; simpl in Hj.
  - injection Hj as ->.
    destruct (decide (to_key date ∈ to_key <$> ds)) as [Hin|Hnot].
    + apply list_elem_of_fmap in Hin as (y & Hkey & [i Hi]%list_elem_of_lookup).
      destruct (IH i y Hi) as (j' & date' & _ & Hj' & Hsame & Hlast).
      exists (S j'), date'. split; [lia |]. split; [done |].
      split; [congruence |].
      intros [|j''] date'' Hlt Hj''; [lia |]. simpl in Hj''.
      rewrite Hkey. apply (Hlast j'' date''); [lia | done].
    + exists 0, date. split; [lia |]. split; [done |]. split; [done |].
      intros [|j''] date'' Hlt Hj''; [lia |]. simpl in Hj''.
      intros Heq. apply Hnot. rewrite <- Heq. apply list_elem_of_fmap.
      exists date''. split; [done |]. by eapply list_elem_of_lookup_2.
  - destruct (IH j date Hj) as (j' & date' & Hle & Hj' & Hsame & Hlast).
    exists (S j'), date'. split; [lia |]. split; [done |]. split; [done |].
    intros [|j''] date'' Hlt Hj''; [lia |]. simpl in Hj''.
    apply (Hlast j'' date''); [lia | done].
Qed.

(** C6, as the code has it. For a cell [v] of a person's row under a date
    whose key is stored ([own_key]) and labels no later column, the person
    is recorded as present for that date exactly when [v] is the boolean
    [true], the text "TRUE" or the text "true"; any other text, [false] and
    a missing cell give absent. When several columns carry the same key,
    each assignment replaces the one before, so what is recorded under the
    key is the reading of the last of these columns. *)
Theorem fetch_reads_three_spellings_as_present :
  (∀ (a : Sheet.api) (headerRow : row) (rest : table) (k j : nat) (rw : row)
     (date : value),
     Sheet.client_ok a = true → Sheet.sheet_id a = true → Sheet.get_ok a = true →
     rest !! k = Some rw →
     headerRow !! (j + 1) = Some date →
     own_key (to_key date) →
     (∀ j' date', j + 1 < j' → headerRow !! j' = Some date' →
                  to_key date' ≠ to_key date) →
     ∃ data p recorded,
       Sheet.getAttendanceDataFromSheet a (headerRow :: rest) = Sheet.Returned data []
       ∧ Sheet.attendanceData data !! k = Some p
       ∧ Sheet.p_attendance p !! to_key date = Some recorded
       ∧ recorded = Sheet.cell_present (rw !! (j + 1))
       ∧ (recorded = true ↔
            rw !! (j + 1) = Some (VBool true)
            ∨ rw !! (j + 1) = Some (VStr "TRUE")
            ∨ rw !! (j + 1) = Some (VStr "true")))
  ∧ (∀ (a : Sheet.api) (headerRow : row) (rest : table) (k j : nat) (rw : row)
       (date : value),
       Sheet.client_ok a = true → Sheet.sheet_id a = true → Sheet.get_ok a = true →
       rest !! k = Some rw →
       headerRow !! (j + 1) = Some date →
       own_key (to_key date) →
       ∃ data p j' date',
         Sheet.getAttendanceDataFromSheet a (headerRow :: rest)
         = Sheet.Returned data []
         ∧ Sheet.attendanceData data !! k = Some p
         ∧ j ≤ j'
         ∧ headerRow !! (j' + 1) = Some date'
         ∧ to_key date' = to_key date
         ∧ (∀ j'' date'', j' + 1 < j'' → headerRow !! j'' = Some date'' →
                          to_key date'' ≠ to_key date)
         ∧ Sheet.p_attendance p !! to_key date
           = Some (Sheet.cell_present (rw !! (j' + 1)))).
Proof.
  assert (∀ (headerRow : row) (rw : row) j date,
            headerRow !! (j + 1) = Some date →
            (∀ j' date', j + 1 < j' → headerRow !! j' = Some date' →
                         to_key date' ≠ to_key date) →
            Sheet.p_attendance (Sheet.row_to_person (drop 1 headerRow) rw)
              !! to_key date
            = Some (Sheet.cell_present (rw !! (j + 1)))) as Hread.
  { intros headerRow rw j date Hj Hlast.
    unfold Sheet.row_to_person. cbn [Sheet.p_attendance].
    rewrite (forEach_date_lookup rw (drop 1 headerRow) 0 ∅ j date).
    - done.
    - rewrite lookup_drop. by replace (1 + j) with (j + 1) by lia.
    - intros j' date' Hlt Hj'. rewrite lookup_drop in Hj'.
      apply (Hlast (1 + j') date'); [lia | done]. }
  split.
  - intros a headerRow rest k j rw date Hc Hs Hg Hk Hj _ Hlast.
    unfold Sheet.getAttendanceDataFromSheet. rewrite Hc, Hs, Hg. cbn [andb].
    eexists _, (Sheet.row_to_person (drop 1 headerRow) rw),
      (Sheet.cell_present (rw !! (j + 1))).
    split; [done |]. cbn [Sheet.attendanceData]. split.
    { by rewrite list_lookup_fmap, Hk. }
    split; [by apply Hread |]. split; [done | apply cell_present_true].
  - intros a headerRow rest k j rw date Hc Hs Hg Hk Hj _.
    assert (drop 1 headerRow !! j = Some date) as Hd.
    { rewrite lookup_drop. by replace (1 + j) with (j + 1) by lia. }
    destruct (last_column_of_key _ _ _ Hd) as (j' & date' & Hle & Hj' & Hsame & Hlast).
    rewrite lookup_drop in Hj'. replace (1 + j') with (j' + 1) in Hj' by lia.
    assert (∀ j'' date'', j' + 1 < j'' → headerRow !! j'' = Some date'' →
                          to_key date'' ≠ to_key date) as Hlast'.
    { intros [|j''] date'' Hlt Hj''; [lia |].
      apply (Hlast j'' date''); [lia |]. by rewrite lookup_drop. }
    unfold Sheet.getAttendanceDataFromSheet. rewrite Hc, Hs, Hg. cbn [andb].
    eexists _, (Sheet.row_to_person (drop 1 headerRow) rw), j', date'.
    split; [done |]. cbn [Sheet.attendanceData]. split.
    { by rewrite list_lookup_fmap, Hk. }
    split; [done |]. split; [done |]. split; [done |]. split; [done |].
    rewrite <- Hsame. apply Hread; [done |].
    intros j'' date'' Hlt Hj''. rewrite Hsame. by apply (Hlast' j'' date'').
Qed.

Lemma fetch_reads_three_spellings_as_present_witness :
  (∃ data p,
     Sheet.getAttendanceDataFromSheet Sample.service_up Sample.sheet
     = Sheet.Returned data []
     ∧ Sheet.attendanceData data !! 1 = Some p
     ∧ Sheet.p_attendance p !! "7/20/2025" = Some true)
  ∧ (∃ data p,
       Sheet.getAttendanceDataFromSheet Sample.service_up
         [ [VStr "Name"; VStr "7/20/2025"; VStr "7/20/2025"];
           [VStr "Smith, Jane"; VStr "TRUE"; VStr "FALSE"] ]
       = Sheet.Returned data []
       ∧ Sheet.attendanceData data !! 0 = Some p
       ∧ Sheet.p_attendance p !! "7/20/2025" = Some false).
Proof.
  split.
  - destruct (proj1 fetch_reads_three_spellings_as_present Sample.service_up
                [VStr "Name"; VStr "7/20/2025"; VStr "7/13/2025"]
                [ [VStr "Smith, Jane"; VBool false; VStr "TRUE"];
                  [VStr "Doe, John"; VStr "true"] ]
                1 0 [VStr "Doe, John"; VStr "true"] (VStr "7/20/2025")
                eq_refl eq_refl eq_refl eq_refl eq_refl)
      as (data & p & recorded & Hget & Hp & Hrec & -> & _).
    + discriminate.
    + intros [|[|[|j']]] date' Hlt Hj'; try lia; [| done].
      injection Hj' as <-. discriminate.
    + by exists data, p.
  - destruct (proj2 fetch_reads_three_spellings_as_present Sample.service_up
                [VStr "Name"; VStr "7/20/2025"; VStr "7/20/2025"]
                [ [VStr "Smith, Jane"; VStr "TRUE"; VStr "FALSE"] ]
                0 0 [VStr "Smith, Jane"; VStr "TRUE"; VStr "FALSE"]
                (VStr "7/20/2025")
                eq_refl eq_refl eq_refl eq_refl eq_refl)
      as (data & p & j' & date' & Hget & Hp & _ & Hj' & _ & Hlast & Hrec).
    + discriminate.
    + exists data, p. split; [done |]. split; [done |].
      destruct j' as [|[|j']].
      * exfalso. by apply (Hlast 2 (VStr "7/20/2025")); [lia | |].
      * exact Hrec.
      * simpl in Hj'. by destruct j'.
Defined.

(** C6 as specified does not hold for mixed case: the text "True"
    lower-cases to "true" and is still recorded as absent. *)
Lemma mixed_case_true_is_absent :
  toLowerCase "True" = "true"
  ∧ Sheet.cell_present (Some (VStr "True")) = false
  ∧ ∃ data p,
      Sheet.getAttendanceDataFromSheet Sample.service_up
        [ [VStr "Name"; VStr "7/20/2025"]; [VStr "Smith, Jane"; VStr "True"] ]
      = Sheet.Returned data []
      ∧ Sheet.attendanceData data !! 0 = Some p
      ∧ Sheet.p_attendance p !! "7/20/2025" = Some false.
Proof. split; [done |]. split; [done |]. by eexists _, _. Qed.

(** ** The per-date view *)

Section ViewModelFacts.
Import ViewModel.

Lemma present_on_lookup date item :
  present_on date item = default false (attendance item !! date).
Proof.
  unfold present_on. destruct (attendance item !! date) as [b|]; [| done].
  apply orb_false_r.
Qed.




(** *** Toggling *)


(** Out of range the assignment to [updatedRecords[index].present] throws. *)
Lemma toggle_out_of_range i v s :
  length (attendanceRecords s) ≤ i → handleAttendanceChange i v s = None.
Proof.
  intros Hi. unfold handleAttendanceChange.
  by rewrite (lookup_ge_None_2 _ _ Hi).
Qed.

(** A load that brings at least one date leaves a view as long as the
    matrix, and so does selecting a date; toggling keeps both lengths. *)
Lemma load_aligns_view status data d ds s :
  ok status = true → dates data = d :: ds →
  let s' := fetchAttendanceData (Replied status (Some data)) s in
  length (attendanceRecords s') = length (fullAttendanceData s')
  ∧ selectedDate s' = d.
Proof.
  intros Hok Hd. unfold fetchAttendanceData. rewrite Hok, Hd. cbn.
  split; [apply length_map | done].
Qed.

Lemma toggle_keeps_lengths i v s s' :
  handleAttendanceChange i v s = Some s' →
  length (attendanceRecords s') = length (attendanceRecords s)
  ∧ length (fullAttendanceData s') = length (fullAttendanceData s).
Proof.
  unfold handleAttendanceChange.
  destruct (attendanceRecords s !! i) as [r|]; [| done].
  destruct (fullAttendanceData s !! i) as [p|];
    [case_bool_decide |]; intros [= <-]; cbn; by rewrite ?length_insert.
Qed.




End ViewModelFacts.


(** ** Loading *)

Section LoadFacts.
Import ViewModel.

Lemma fetch_failure_keeps_data r s :
  failed_fetch r →
  let s' := fetchAttendanceData r s in
  fullAttendanceData s' = fullAttendanceData s
  ∧ availableDates s' = availableDates s
  ∧ attendanceRecords s' = attendanceRecords s
  ∧ selectedDate s' = selectedDate s
  ∧ is_Some (error s')
  ∧ loading s' = false.
Proof.
  intros Hr. unfold fetchAttendanceData.
  destruct r as [|status body]; simpl in Hr.
  - cbn. by repeat split.
  - destruct (ok status) eqn:Hok; cbn [negb].
    + destruct Hr as [Hr| ->]; [done |]. cbn. by repeat split.
    + case_bool_decide; cbn; by repeat split.
Qed.

(** C5 as specified does not hold on a sheet without rows: the read returns
    an empty result instead of throwing, the endpoint answers 200, and the
    refresh replaces a loaded matrix by the empty one without an error. *)
Lemma empty_sheet_clears_loaded_matrix :
  Sheet.getAttendanceDataFromSheet Sample.service_up []
  = Sheet.Returned {| Sheet.dates := []; Sheet.attendanceData := [] |}
      [LogNoDataFound]
  ∧ fullAttendanceData Sample.loaded = [Sample.jane]
  ∧ ∃ s', App.loadAll Sample.service_up [] Sample.loaded = Some s'
          ∧ fullAttendanceData s' = []
          ∧ error s' = None.
Proof. split; [done |]. split; [done |]. by eexists. Qed.

(** C5, as the code has it. A read that finds no rows is a success with an
    empty date list and an empty matrix (a warning is printed); the refresh
    then stores both in place of what was loaded and sets no error. When the
    read throws, the endpoint answers 500, and on any failed fetch the
    refresh keeps the matrix, the date list, the view and the selected date
    and sets the error. *)
Theorem refresh_on_empty_sheet_and_on_failure :
  (∀ (a : Sheet.api) (s : state),
     Sheet.client_ok a = true → Sheet.sheet_id a = true → Sheet.get_ok a = true →
     Sheet.getAttendanceDataFromSheet a []
     = Sheet.Returned {| Sheet.dates := []; Sheet.attendanceData := [] |}
         [LogNoDataFound]
     ∧ ∃ s', App.loadAll a [] s = Some s'
             ∧ fullAttendanceData s' = []
             ∧ availableDates s' = []
             ∧ error s' = None
             ∧ loading s' = false)
  ∧ (∀ (a : Sheet.api) (values : table) (s : state),
       Sheet.client_ok a && Sheet.sheet_id a && Sheet.get_ok a = false →
       Sheet.getAttendanceDataFromSheet a values = Sheet.Thrown [LogGetError]
       ∧ ∃ s', App.loadAll a values s = Some s'
               ∧ fullAttendanceData s' = fullAttendanceData s
               ∧ availableDates s' = availableDates s
               ∧ attendanceRecords s' = attendanceRecords s
               ∧ selectedDate s' = selectedDate s
               ∧ error s' = Some (MsgHttpError 500)
               ∧ loading s' = false)
  ∧ (∀ (r : fetched payload) (s : state),
       failed_fetch r →
       fullAttendanceData (fetchAttendanceData r s) = fullAttendanceData s
       ∧ availableDates (fetchAttendanceData r s) = availableDates s
       ∧ attendanceRecords (fetchAttendanceData r s) = attendanceRecords s
       ∧ selectedDate (fetchAttendanceData r s) = selectedDate s
       ∧ is_Some (error (fetchAttendanceData r s))
       ∧ loading (fetchAttendanceData r s) = false).
Proof.
  split; [| split].
  - intros a s Hc Hs Hg.
    unfold App.loadAll, Sheet.getAttendanceData, Sheet.getAttendanceDataFromSheet.
    rewrite Hc, Hs, Hg. cbn. split; [done |]. eexists. by repeat split.
  - intros a values s Hdown.
    unfold App.loadAll, Sheet.getAttendanceData, Sheet.getAttendanceDataFromSheet.
    rewrite Hdown. split; [done |]. eexists. by repeat split.
  - intros r s Hr. exact (fetch_failure_keeps_data r s Hr).
Qed.

Lemma refresh_on_empty_sheet_and_on_failure_witness :
  ∃ s', App.loadAll (Sheet.mkApi true true false true) Sample.sheet Sample.loaded
        = Some s'
        ∧ fullAttendanceData s' = [Sample.jane]
        ∧ error s' = Some (MsgHttpError 500).
Proof.
  destruct (proj1 (proj2 refresh_on_empty_sheet_and_on_failure)
              (Sheet.mkApi true true false true) Sample.sheet Sample.loaded eq_refl)
    as (_ & s' & Hload & Hfull & _ & _ & _ & Herr & _).
  exists s'. by repeat split.
Defined.

End LoadFacts.

(** ** The authorization gate *)

Section AuthFacts.
Import Auth.

(** C7 as specified does not hold on an expired cache: the failed read
    answers the empty list although a cached list exists, and on a first load
    a failed read answers what a successful read of an empty collection
    answers. *)
Lemma failed_read_returns_empty_list :
  let stale := mkCache ["me@example.org"] 0 in
  getAuthorizedEmails 600000 (mkFirestore false true) [Sample.me] stale
  = ([], stale)
  ∧ fst (getAuthorizedEmails 1 (mkFirestore false true) [Sample.me] module_init)
    = fst (getAuthorizedEmails 1 (mkFirestore true true) [] module_init).
Proof. done. Qed.

(** C7, as the code has it. When the read of the collection fails,
    [getAuthorizedEmails] leaves the cached list and its time stamp as they
    were; it returns the cached list only when that list is non-empty and
    younger than ten minutes (in which case no read is attempted), and the
    empty list otherwise, without raising an error, on a first load as on
    any later one. *)
Theorem failed_read_keeps_cache_returns_empty :
  ∀ (now : Z) (deleteDoc_ok : bool) (users : list doc) (c : cache),
    let fs := mkFirestore false deleteDoc_ok in
    snd (getAuthorizedEmails now fs users c) = c
    ∧ fst (getAuthorizedEmails now fs users c)
      = (if (0 <? length (cachedAuthorizedEmails c))
            && (now - lastFetchTime c <? CACHE_DURATION)%Z
         then cachedAuthorizedEmails c else [])
    ∧ ((CACHE_DURATION ≤ now - lastFetchTime c)%Z →
       fst (getAuthorizedEmails now fs users c) = []).
Proof.
  intros now w users c fs. unfold getAuthorizedEmails. subst fs.
  cbn [getDocs_ok].
  destruct (0 <? length (cachedAuthorizedEmails c)); cbn [andb];
    [| by repeat split].
  destruct (now - lastFetchTime c <? CACHE_DURATION)%Z eqn:Hfresh;
    split; try done; split; try done; intros Hold;
    apply Z.ltb_lt in Hfresh; lia.
Qed.

Lemma failed_read_keeps_cache_returns_empty_witness :
  fst (getAuthorizedEmails 600000 (mkFirestore false true) [Sample.me]
         (mkCache ["me@example.org"] 0)) = [].
Proof.
  refine (proj2 (proj2 (failed_read_keeps_cache_returns_empty 600000 true
                          [Sample.me] (mkCache ["me@example.org"] 0))) _).
  unfold CACHE_DURATION. cbn [lastFetchTime]. lia.
Defined.

(** C8 as specified does not hold of [removeAuthorizedEmail] itself, which
    knows no acting user: it deletes the entry of whoever calls it and
    returns [true]. *)
Lemma remove_does_not_check_acting_user :
  removeAuthorizedEmail (mkFirestore true true) "me@example.org"
    [Sample.me; Sample.other] (mkCache ["me@example.org"; "you@example.org"] 7)
  = (true, [Sample.other], mkCache [] 0).
Proof. done. Qed.

(** C8, as the code has it. Self-removal is refused by the handler of the
    user-management component, not by [removeAuthorizedEmail]: called with
    an email identical to the acting user's, [handleRemoveEmail] shows the
    "cannot remove your own email" notice and stops there, so no document
    is deleted and the cache is untouched, whatever the collection holds. *)
Theorem handler_refuses_self_removal :
  ∀ (currentUserEmail : string) (now : Z) (fs : firestore)
    (users : list doc) (c : cache) (u : ui),
    handleRemoveEmail currentUserEmail now fs currentUserEmail users c u
    = ({| authorizedEmails := authorizedEmails u; loading := loading u;
          error := Some CannotRemoveSelf; isRemoving := isRemoving u;
          removeSuccess := removeSuccess u |}, users, c).
Proof.
  intros cur now fs users c u. unfold handleRemoveEmail.
  by rewrite bool_decide_eq_true_2.
Qed.

(** The guard compares the two strings as they are: for an acting user whose
    address is spelled with capitals, the lower-cased entry of the list passes
    the guard and is deleted. *)
Lemma handler_guard_compares_exactly :
  (handleRemoveEmail "Me@Example.org" 1 (mkFirestore true true) "me@example.org"
     [Sample.me; Sample.other] module_init
     (mkUi ["me@example.org"; "you@example.org"] false None None false)).1.2
  = [Sample.other].
Proof. done. Qed.

End AuthFacts.

(** ** Date display *)

Section DateDisplayFacts.
Import DateDisplay.

Variable Date : Type.
Variable parse : string → string → Date → result Date.
Variable format : Date → string → result string.
Variable valid : Date → bool.

(** What date-fns documents: the lower units of a parsed date do not come
    from the reference date when the format string gives the day, and
    [format] throws a RangeError on an invalid date. *)
Hypothesis parse_ignores_reference :
  ∀ s r1 r2, parse s "M/d/yyyy" r1 = parse s "M/d/yyyy" r2.
Hypothesis format_invalid_throws :
  ∀ d f, valid d = false → format d f = Throw.

(** C9. [formatDateForDisplay] depends on its argument only, not on the
    moment of the call. On a string that parses to a valid date it returns
    what [format] makes of that date with the pattern "MMMM d, yyyy"; on a
    string that parses to an invalid date, or when a call throws, it
    returns the string itself. *)
Theorem formatDateForDisplay_total_and_pure :
  ∀ (now : Date) (dateString : string),
    (∀ now', formatDateForDisplay Date parse format now' dateString
             = formatDateForDisplay Date parse format now dateString)
    ∧ (∀ d text, parse dateString "M/d/yyyy" now = Ok d →
                 format d "MMMM d, yyyy" = Ok text →
                 formatDateForDisplay Date parse format now dateString = text)
    ∧ (∀ d, parse dateString "M/d/yyyy" now = Ok d → valid d = false →
            formatDateForDisplay Date parse format now dateString = dateString)
    ∧ (parse dateString "M/d/yyyy" now = Throw →
       formatDateForDisplay Date parse format now dateString = dateString).
Proof.
  intros now dateString. unfold formatDateForDisplay. split; [| split; [| split]].
  - intros now'. by rewrite (parse_ignores_reference dateString now' now).
  - intros d text -> ->. done.
  - intros d -> Hd. by rewrite (format_invalid_throws d _ Hd).
  - intros ->. done.
Qed.

End DateDisplayFacts.

Lemma formatDateForDisplay_total_and_pure_witness :
  DateDisplay.formatDateForDisplay _ DateDisplay.datefns_parse
    DateDisplay.datefns_format (DateDisplay.Day 2026 1 1) "7/20/2025"
  = "July 20, 2025"
  ∧ DateDisplay.formatDateForDisplay _ DateDisplay.datefns_parse
      DateDisplay.datefns_format (DateDisplay.Day 2026 1 1) "not-a-date"
    = "not-a-date".
Proof.
  assert (∀ d f, DateDisplay.is_valid d = false →
                 DateDisplay.datefns_format d f = DateDisplay.Throw) as Hthrow.
  { intros [y m d|] f Hd; [discriminate |].
    unfold DateDisplay.datefns_format. by case_bool_decide. }
  split.
  - exact (proj1 (proj2 (formatDateForDisplay_total_and_pure
             DateDisplay.jsdate DateDisplay.datefns_parse DateDisplay.datefns_format
             DateDisplay.is_valid (λ s r1 r2, eq_refl) Hthrow
             (DateDisplay.Day 2026 1 1) "7/20/2025"))
             (DateDisplay.Day 2025 7 20) "July 20, 2025" eq_refl eq_refl).
  - exact (proj1 (proj2 (proj2 (formatDateForDisplay_total_and_pure
             DateDisplay.jsdate DateDisplay.datefns_parse DateDisplay.datefns_format
             DateDisplay.is_valid (λ s r1 r2, eq_refl) Hthrow
             (DateDisplay.Day 2026 1 1) "not-a-date")))
             DateDisplay.InvalidDate eq_refl eq_refl).
Defined.

(** ** Saving right after loading *)

Section NoopSave.
Import ViewModel.

Lemma cell_present_bool b : Sheet.cell_present (Some (VBool b)) = b.
Proof. by destruct b. Qed.

Lemma reread_refl t : App.reread t t.
Proof. intros r c. by left. Qed.

Lemma reread_reading t t' r c :
  App.reread t t' →
  Sheet.cell_present (Sheet.cell t' r c) = Sheet.cell_present (Sheet.cell t r c).
Proof.
  intros H. destruct (H r c) as [-> | (-> & _ & ->)]; [done |].
  apply cell_present_bool.
Qed.

Lemma reread_trans t1 t2 t3 :
  App.reread t1 t2 → App.reread t2 t3 → App.reread t1 t3.
Proof.
  intros H12 H23 r c. destruct (H23 r c) as [-> | (-> & Hr & ->)]; [apply H12 |].
  right. by rewrite (reread_reading t1 t2 r 1 H12).
Qed.

Lemma reread_write (t : table) r rw :
  t !! r = Some rw → 1 ≤ length rw → 1 ≤ r →
  App.reread t (Sheet.write_cell t r 1 (VBool (Sheet.cell_present (rw !! 1)))).
Proof.
  intros Hr Hlen Hpos r' c'.
  rewrite (cell_write_cell t r 1 _ r' c' rw Hr Hlen).
  case_bool_decide as Hd; [| by left].
  destruct Hd as [-> ->]. right. repeat split; [done |].
  unfold Sheet.cell. by rewrite Hr.
Qed.

Lemma rereads_after_write (t : table) w w' :
  App.rereads t w → App.rereads t w' →
  App.rereads (Sheet.apply_write t w) w'.
Proof.
  intros (Hcol & r & rw & Hrow & Hr & Hrw & Hlen & Hval)
         (Hcol' & r' & rw' & Hrow' & Hr' & Hrw' & Hlen' & Hval').
  split; [done |].
  unfold Sheet.apply_write, Sheet.write_cell. rewrite Hcol, Hrow.
  replace (r + 1 - 1) with r by lia. replace (65 + 1 - 65) with 1 by lia.
  destruct (decide (r' = r)) as [-> | Hne].
  - exists r, (Sheet.set_col rw 1 (VBool (Sheet.w_value w))).
    assert (rw' = rw) as -> by congruence.
    rewrite list_lookup_alter_eq, Hrw. repeat split; [done | done | |].
    + unfold Sheet.set_col. destruct (1 <? length rw) eqn:E.
      * by rewrite length_insert.
      * rewrite length_app. lia.
    + rewrite Hval'. symmetry. rewrite <- (cell_present_bool (Sheet.cell_present (rw !! 1))).
      f_equal. rewrite Hval. unfold Sheet.set_col.
      destruct (1 <? length rw) eqn:E.
      * apply Nat.ltb_lt in E. by apply list_lookup_insert_eq.
      * apply Nat.ltb_ge in E. assert (length rw = 1) as Hone by lia.
        rewrite lookup_app_r by lia. by rewrite Hone.
  - exists r', rw'. rewrite list_lookup_alter_ne by done. by repeat split.
Qed.

Lemma reread_apply_write (t : table) w :
  App.rereads t w → App.reread t (Sheet.apply_write t w).
Proof.
  intros (Hcol & r & rw & Hrow & Hr & Hrw & Hlen & Hval).
  unfold Sheet.apply_write. rewrite Hcol, Hrow, Hval.
  replace (r + 1 - 1) with r by lia. replace (65 + 1 - 65) with 1 by lia.
  by apply reread_write.
Qed.

Lemma reread_apply_batch (t : table) batch :
  Forall (App.rereads t) batch → App.reread t (Sheet.apply_batch t batch).
Proof.
  unfold Sheet.apply_batch. revert t.
  induction batch as [|w batch IH]; intros t Hall; [apply reread_refl |].
  apply Forall_cons in Hall as [Hw Hall]. cbn [foldl].
  apply (reread_trans t (Sheet.apply_write t w)); [by apply reread_apply_write |].
  apply IH. eapply Forall_impl; [exact Hall |].
  intros w' Hw'. by apply rereads_after_write.
Qed.

Lemma rereads_valid_ref t w : App.rereads t w → Sheet.valid_ref w = true.
Proof.
  intros (Hcol & r & rw & Hrow & _). unfold Sheet.valid_ref.
  rewrite Hcol, Hrow. rewrite !andb_true_iff, !Nat.leb_le. lia.
Qed.

(** What the view built at load time promises about a record: its name
    is found in a row below the header, and its boolean is the reading of
    that row's cell in column B. *)
Lemma collect_rereads (values : table) records :
  Forall (λ rec, ∃ r rw,
            findIndex (λ rw : row, strict_eq_str (rw !! 0) (name rec)) values = Some r
            ∧ 1 ≤ r ∧ values !! r = Some rw ∧ 1 ≤ length rw
            ∧ present rec = Sheet.cell_present (rw !! 1)) records →
  ∃ batch, Sheet.collect values (65 + 1) records = (batch, [])
           ∧ Forall (App.rereads values) batch.
Proof.
  induction records as [|rec records IH]; intros Hall.
  - exists []. by split.
  - apply Forall_cons in Hall as [(r & rw & Hfind & Hr & Hrw & Hlen & Hval) Hall].
    destruct (IH Hall) as (batch & Hbatch & Hrereads).
    cbn [Sheet.collect]. rewrite Hbatch, Hfind. eexists. split; [done |].
    apply Forall_cons. split; [| done].
    split; [done |]. exists r, rw. by repeat split.
Qed.

Lemma update_reread a (headerRow : row) (rest : table) date records :
  findIndex (λ header, strict_eq_str (Some header) date) headerRow = Some 1 →
  Forall (λ rec, ∃ r rw,
            findIndex (λ rw : row, strict_eq_str (rw !! 0) (name rec))
              (headerRow :: rest) = Some r
            ∧ 1 ≤ r ∧ (headerRow :: rest) !! r = Some rw ∧ 1 ≤ length rw
            ∧ present rec = Sheet.cell_present (rw !! 1)) records →
  App.reread (headerRow :: rest)
    (Sheet.updateAttendanceInSheet a (headerRow :: rest) date records).2.
Proof.
  intros Hdate Hall. unfold Sheet.updateAttendanceInSheet.
  destruct (Sheet.client_ok a); cbn [negb]; [| apply reread_refl].
  destruct (Sheet.sheet_id a); cbn [negb]; [| apply reread_refl].
  destruct (Sheet.get_ok a); cbn [negb]; [| apply reread_refl].
  rewrite Hdate.
  destruct (collect_rereads (headerRow :: rest) records Hall)
    as (batch & -> & Hbatch).
  destruct (0 <? length batch); [| apply reread_refl].
  destruct (Sheet.batch_ok a); cbn [andb]; [| apply reread_refl].
  assert (forallb Sheet.valid_ref batch = true) as ->.
  { apply forallb_forall. intros w Hw. apply list_elem_of_In in Hw.
    rewrite Forall_forall in Hbatch. eapply rereads_valid_ref, Hbatch, Hw. }
  cbn [snd]. by apply reread_apply_batch.
Qed.

Lemma loaded_records_found (headerRow : row) (rest : table) d0 ps :
  NoDup headerRow →
  NoDup (map (λ rw : row, rw !! 0) (headerRow :: rest)) →
  headerRow !! 1 = Some (VStr d0) →
  Forall (λ v, ∃ t, v = VStr t) (drop 1 headerRow) →
  mapM App.json_person (map (Sheet.row_to_person (drop 1 headerRow)) rest) = Some ps →
  Forall (λ rec, ∃ r rw,
            findIndex (λ rw : row, strict_eq_str (rw !! 0) (name rec))
              (headerRow :: rest) = Some r
            ∧ 1 ≤ r ∧ (headerRow :: rest) !! r = Some rw ∧ 1 ≤ length rw
            ∧ present rec = Sheet.cell_present (rw !! 1))
    (map (record_for d0) ps).
Proof.
  intros Hheader Hnames Hd0 Htext Hps. apply Forall_lookup. intros k rec Hk.
  rewrite list_lookup_fmap in Hk.
  destruct (ps !! k) as [pk|] eqn:Hpk; [| done]. injection Hk as <-.
  apply mapM_Some_1 in Hps.
  destruct (Forall2_lookup_r _ _ _ _ _ Hps Hpk) as (sp & Hsp & Hjson).
  rewrite list_lookup_fmap in Hsp.
  destruct (rest !! k) as [rw|] eqn:Hrw; [| done]. injection Hsp as <-.
  unfold App.json_person, Sheet.row_to_person in Hjson. cbn in Hjson.
  destruct (rw !! 0) as [[n|b]|] eqn:Hname; try done.
  cbn in Hjson. injection Hjson as <-.
  exists (S k), rw. cbn [record_for name present person_name].
  split; [| split; [lia | split; [done | split]]].
  - apply (findIndex_first_match (headerRow :: rest) n (S k) rw); [done | done |].
    intros j rw' Hj Hrw' Hsame.
    assert (j = S k); [| lia].
    eapply (NoDup_lookup _ j (S k) (Some (VStr n)) Hnames).
    + by rewrite list_lookup_fmap, Hrw', <- Hsame.
    + rewrite list_lookup_fmap.
      change ((headerRow :: rest) !! S k) with (rest !! k).
      by rewrite Hrw, <- Hname.
  - by eapply lookup_lt_Some.
  - rewrite present_on_lookup. cbn [attendance].
    rewrite (forEach_date_lookup rw (drop 1 headerRow) 0 ∅ 0 (VStr d0)).
    + done.
    + by rewrite lookup_drop.
    + intros j' date' Hlt Hj'.
      rewrite Forall_lookup in Htext. destruct (Htext j' date' Hj') as [t ->].
      cbn [to_key]. intros ->.
      rewrite lookup_drop in Hj'.
      pose proof (NoDup_lookup headerRow (1 + j') 1 (VStr d0) Hheader Hj' Hd0).
      lia.
Qed.

Lemma save_sheet a (values : table) s :
  (App.save a values s).2
  = if bool_decide (selectedDate s = "") then values
    else (Sheet.updateAttendanceInSheet a values (selectedDate s)
            (attendanceRecords s)).2.
Proof.
  unfold App.save, Sheet.updateAttendance, updateData.
  cbn [Sheet.req_date Sheet.req_attendance].
  case_bool_decide; [done |].
  destruct (Sheet.updateAttendanceInSheet _ _ _ _) as [[[] logs] values']; done.
Qed.

Lemma load_then_save_reread a1 a2 (headerRow : row) (rest : table) s s' values' :
  Sheet.client_ok a1 = true → Sheet.sheet_id a1 = true → Sheet.get_ok a1 = true →
  NoDup headerRow →
  NoDup (map (λ rw : row, rw !! 0) (headerRow :: rest)) →
  is_Some (headerRow !! 1) ∨ selectedDate s = "" →
  App.load_then_save a1 a2 (headerRow :: rest) s = Some (s', values') →
  App.reread (headerRow :: rest) values'.
Proof.
  intros Hc Hs Hg Hheader Hnames Hdated Hrun.
  unfold App.load_then_save, App.loadAll, Sheet.getAttendanceData,
    Sheet.getAttendanceDataFromSheet in Hrun.
  rewrite Hc, Hs, Hg in Hrun. cbn [andb] in Hrun.
  unfold App.json_payload in Hrun. cbn [Sheet.dates Sheet.attendanceData] in Hrun.
  destruct (mapM (λ v, App.json_text (Some v)) (drop 1 headerRow))
    as [ds|] eqn:Hds; [| done].
  cbn [mbind option_bind] in Hrun.
  destruct (mapM App.json_person (map (Sheet.row_to_person (drop 1 headerRow)) rest))
    as [ps|] eqn:Hps; [| done].
  cbn [mbind option_bind] in Hrun. injection Hrun as Hrun.
  apply (f_equal snd) in Hrun. cbn [snd] in Hrun. rewrite save_sheet in Hrun.
  subst values'.
  apply mapM_Some_1 in Hds.
  assert (Forall (λ v, ∃ t, v = VStr t) (drop 1 headerRow)) as Htext.
  { apply Forall_lookup. intros j v Hv.
    destruct (Forall2_lookup_l _ _ _ _ _ Hds Hv) as (t & _ & Ht).
    destruct v as [t'|b]; [by exists t' | done]. }
  destruct ds as [|d0 ds].
  - apply Forall2_nil_inv_r in Hds.
    assert (headerRow !! 1 = None) as Hnone.
    { rewrite <- (Nat.add_0_r 1), <- lookup_drop, Hds. done. }
    destruct Hdated as [[v Hv] | Hempty]; [congruence |].
    unfold fetchAttendanceData. cbn. rewrite Hempty. apply reread_refl.
  - assert (headerRow !! 1 = Some (VStr d0)) as Hd0.
    { destruct (Forall2_lookup_r _ _ _ 0 d0 Hds eq_refl) as (v & Hv & Ht).
      rewrite lookup_drop in Hv. cbn in Hv. rewrite Hv.
      destruct v as [t|b]; [| done]. cbn in Ht. congruence. }
    unfold fetchAttendanceData. cbn.
    case_bool_decide; [apply reread_refl |].
    apply update_reread.
    + apply findIndex_header_date; [done |].
      intros j Hj Hsame. assert (j = 0) as -> by lia.
      pose proof (NoDup_lookup headerRow 0 1 (VStr d0) Hheader Hsame Hd0). lia.
    + by apply loaded_records_found.
Qed.

(** C3 as specified does not hold: with two rows of the same name the save
    writes the second row's value into the first row, turning its checked
    cell into an unchecked one; a text cell that is not read as present, here
    "True", is replaced by [false]; and with one date heading two columns the
    value read from the second column is written into the first. *)
Lemma noop_save_alters_cells :
  (let values := [ [VStr "Name"; VStr "7/20/2025"];
                   [VStr "Smith, Jane"; VBool true];
                   [VStr "Smith, Jane"; VBool false] ] in
   ∃ s' values',
     App.load_then_save Sample.service_up Sample.service_up values initial
     = Some (s', values')
     ∧ Sheet.cell values 1 1 = Some (VBool true)
     ∧ Sheet.cell values' 1 1 = Some (VBool false))
  ∧ (let values := [ [VStr "Name"; VStr "7/20/2025"];
                     [VStr "Smith, Jane"; VStr "True"] ] in
     ∃ s' values',
       App.load_then_save Sample.service_up Sample.service_up values initial
       = Some (s', values')
       ∧ Sheet.cell values 1 1 = Some (VStr "True")
       ∧ Sheet.cell values' 1 1 = Some (VBool false))
  ∧ (let values := [ [VStr "Name"; VStr "7/20/2025"; VStr "7/20/2025"];
                     [VStr "Smith, Jane"; VBool true; VBool false] ] in
     ∃ s' values',
       App.load_then_save Sample.service_up Sample.service_up values initial
       = Some (s', values')
       ∧ Sheet.cell values 1 1 = Some (VBool true)
       ∧ Sheet.cell values' 1 1 = Some (VBool false)).
Proof.
  repeat split; cbn zeta; eexists _, _;
    (split; [vm_compute; reflexivity |]); by split.
Qed.

(** C3, as the code has it. Take a sheet whose header cells are pairwise
    distinct and whose rows, header included, have pairwise distinct first
    cells, and a load that succeeds (with at least one date column, or in
    an app that has no date selected yet). Saving right after the load
    touches only column B below the header and stores there the boolean
    each cell was read as: every cell keeps its reading as present or
    absent, every cell outside that column keeps its value, and so does
    every cell that already held a boolean; a cell that changes held text
    or nothing and now holds the boolean it was read as. *)
Theorem noop_save_keeps_readings :
  ∀ (a1 a2 : Sheet.api) (headerRow : row) (rest : table) (s s' : state)
    (values' : table),
    Sheet.client_ok a1 = true → Sheet.sheet_id a1 = true → Sheet.get_ok a1 = true →
    NoDup headerRow →
    NoDup (map (λ rw : row, rw !! 0) (headerRow :: rest)) →
    is_Some (headerRow !! 1) ∨ selectedDate s = "" →
    App.load_then_save a1 a2 (headerRow :: rest) s = Some (s', values') →
    (∀ r c, Sheet.cell_present (Sheet.cell values' r c)
            = Sheet.cell_present (Sheet.cell (headerRow :: rest) r c))
    ∧ (∀ r c, ¬ (1 ≤ r ∧ c = 1) →
              Sheet.cell values' r c = Sheet.cell (headerRow :: rest) r c)
    ∧ (∀ r c b, Sheet.cell (headerRow :: rest) r c = Some (VBool b) →
                Sheet.cell values' r c = Some (VBool b))
    ∧ (∀ r c, Sheet.cell values' r c ≠ Sheet.cell (headerRow :: rest) r c →
              Sheet.cell values' r c
              = Some (VBool (Sheet.cell_present (Sheet.cell (headerRow :: rest) r c)))).
Proof.
  intros a1 a2 headerRow rest s s' values' Hc Hs Hg Hheader Hnames Hdated Hrun.
  pose proof (load_then_save_reread a1 a2 headerRow rest s s' values'
                Hc Hs Hg Hheader Hnames Hdated Hrun) as Hre.
  split; [intros r c; by apply reread_reading |].
  split; [| split].
  - intros r c Hout. destruct (Hre r c) as [H | (-> & Hr & _)]; [done |].
    destruct Hout. by split.
  - intros r c b Hb. destruct (Hre r c) as [-> | (-> & _ & ->)]; [done |].
    by rewrite Hb, cell_present_bool.
  - intros r c Hne. destruct (Hre r c) as [H | (-> & _ & H)]; done.
Qed.

Lemma noop_save_keeps_readings_witness :
  ∃ s' values',
    App.load_then_save Sample.service_up Sample.service_up Sample.sheet initial
    = Some (s', values')
    ∧ Sheet.cell Sample.sheet 2 1 = Some (VStr "true")
    ∧ Sheet.cell values' 2 1 = Some (VBool true)
    ∧ ∀ r c, Sheet.cell_present (Sheet.cell values' r c)
             = Sheet.cell_present (Sheet.cell Sample.sheet r c).
Proof.
  destruct (App.load_then_save Sample.service_up Sample.service_up Sample.sheet
              initial) as [[s' values']|] eqn:Hrun;
    [| vm_compute in Hrun; discriminate Hrun].
  exists s', values'. split; [done |]. split; [done |]. split.
  - vm_compute in Hrun. by injection Hrun as _ <-.
  - refine (proj1 (noop_save_keeps_readings Sample.service_up Sample.service_up
                     [VStr "Name"; VStr "7/20/2025"; VStr "7/13/2025"]
                     [ [VStr "Smith, Jane"; VBool false; VStr "TRUE"];
                       [VStr "Doe, John"; VStr "true"] ]
                     initial s' values' eq_refl eq_refl eq_refl _ _ _ Hrun)).
    + apply (bool_decide_unpack _). by vm_compute.
    + apply (bool_decide_unpack _). by vm_compute.
    + left. by eexists.
Defined.

End NoopSave.


(** * Further properties *)

(** ** The update of a date, beyond the cases above *)

Section UpdateFacts.

Lemma update_false_unchanged a (values : table) date records :
  (Sheet.updateAttendanceInSheet a values date records).1.1 = false →
  (Sheet.updateAttendanceInSheet a values date records).2 = values.
Proof.
  unfold Sheet.updateAttendanceInSheet.
  destruct (Sheet.client_ok a); cbn [negb]; [| done].
  destruct (Sheet.sheet_id a); cbn [negb]; [| done].
  destruct (Sheet.get_ok a); cbn [negb]; [| done].
  destruct values as [|headerRow rest]; [done |].
  destruct (findIndex _ headerRow) as [c|]; [| done].
  destruct (Sheet.collect _ _ records) as [batch logs].
  destruct (0 <? length batch); [| done].
  destruct (Sheet.batch_ok a && forallb Sheet.valid_ref batch); done.
Qed.

(** X1. Whatever makes [updateAttendanceInSheet] return [false] (no client,
    no sheet id, a failing read, an empty sheet, a date that is not in the
    header, no record that matches a row, a rejected batch), the sheet is
    left as it was; and the endpoint answers 200 only for [true], so any
    other status also means an untouched sheet. *)
Theorem failed_update_leaves_sheet :
  ∀ (a : Sheet.api) (values : table) (date : string)
    (records : list AttendanceRecord),
    ((Sheet.updateAttendanceInSheet a values date records).1.1 = false →
     (Sheet.updateAttendanceInSheet a values date records).2 = values)
    ∧ ((Sheet.updateAttendance a values (Sheet.mkRequest date records)).1 ≠ 200 →
       (Sheet.updateAttendance a values (Sheet.mkRequest date records)).2 = values).
Proof.
  intros a values date records. split; [apply update_false_unchanged |].
  unfold Sheet.updateAttendance. cbn [Sheet.req_date Sheet.req_attendance].
  case_bool_decide; [done |].
  pose proof (update_false_unchanged a values date records) as Hkeep.
  destruct (Sheet.updateAttendanceInSheet a values date records)
    as [[[] logs] values']; cbn in *; [done | auto].
Qed.

Lemma failed_update_leaves_sheet_witness :
  (Sheet.updateAttendanceInSheet (Sheet.mkApi true true true false) Sample.sheet
     "7/20/2025" [mkRecord "Doe, John" true]).2 = Sample.sheet.
Proof.
  exact (proj1 (failed_update_leaves_sheet (Sheet.mkApi true true true false)
                  Sample.sheet "7/20/2025" [mkRecord "Doe, John" true]) eq_refl).
Defined.


Lemma collect_writes (values : table) col records w :
  w ∈ (Sheet.collect values col records).1 →
  Sheet.w_column_code w = col
  ∧ ∃ rec r, rec ∈ records
             ∧ findIndex (λ rw : row, strict_eq_str (rw !! 0) (name rec)) values
               = Some r
             ∧ Sheet.w_row_number w = r + 1
             ∧ Sheet.w_value w = present rec.
Proof.
  induction records as [|rec records IH]; cbn [Sheet.collect].
  - intros H. by apply elem_of_nil in H.
  - destruct (Sheet.collect values col records) as [batch logs].
    cbn [fst] in IH.
    destruct (findIndex _ values) as [r|] eqn:Hfind; cbn [fst].
    + intros [-> | Hw]%elem_of_cons.
      * split; [done |]. exists rec, r. repeat split; [by left | done].
      * destruct (IH Hw) as (Hcol & rec' & r' & Hin & Hrest).
        split; [done |]. exists rec', r'. split; [by right | done].
    + intros Hw. destruct (IH Hw) as (Hcol & rec' & r' & Hin & Hrest).
      split; [done |]. exists rec', r'. split; [by right | done].
Qed.

Lemma collect_batch_length (values : table) col records :
  length (Sheet.collect values col records).1
  = length (filter (λ rec, findIndex (λ rw : row, strict_eq_str (rw !! 0) (name rec))
                             values ≠ None) records).
Proof.
  induction records as [|rec records IH]; [done |].
  cbn [Sheet.collect]. destruct (Sheet.collect values col records) as [batch logs].
  cbn [fst] in IH. rewrite filter_cons.
  destruct (findIndex _ values) as [r|] eqn:Hfind; cbn [fst].
  - rewrite decide_True by done. cbn [length]. by rewrite IH.
  - by rewrite decide_False by (intros H; by apply H).
Qed.

Lemma collect_logs (values : table) col records :
  (Sheet.collect values col records).2
  = map (λ rec, LogNameNotFound (name rec))
      (filter (λ rec, findIndex (λ rw : row, strict_eq_str (rw !! 0) (name rec))
                        values = None) records).
Proof.
  induction records as [|rec records IH]; [done |].
  cbn [Sheet.collect]. destruct (Sheet.collect values col records) as [batch logs].
  cbn [snd] in IH. rewrite filter_cons.
  destruct (findIndex _ values) as [r|] eqn:Hfind; cbn [snd].
  - by rewrite decide_False by done.
  - rewrite decide_True by done. cbn [map]. by rewrite IH.
Qed.

Lemma collect_valid_refs (values : table) c records :
  c < 26 → forallb Sheet.valid_ref (Sheet.collect values (65 + c) records).1 = true.
Proof.
  intros Hc. apply forallb_forall. intros w Hw. apply list_elem_of_In in Hw.
  destruct (collect_writes _ _ _ _ Hw) as (Hcol & rec & r & _ & _ & Hrow & _).
  unfold Sheet.valid_ref. rewrite Hcol, Hrow.
  rewrite !andb_true_iff, !Nat.leb_le. lia.
Qed.

Lemma findIndex_name_is_Some (values : table) n :
  findIndex (λ rw : row, strict_eq_str (rw !! 0) n) values ≠ None
  ↔ ∃ rw, rw ∈ values ∧ rw !! 0 = Some (VStr n).
Proof.
  split.
  - intros Hnot. destruct (findIndex _ values) as [r|] eqn:Hfind; [| done].
    apply findIndex_Some in Hfind as [(rw & Hrw & Hname) _].
    exists rw. split; [by eapply list_elem_of_lookup_2 |].
    by apply strict_eq_str_true.
  - intros (rw & Hrw & Hname). rewrite findIndex_None. intros Hall.
    specialize (Hall rw Hrw). apply strict_eq_str_true in Hname. congruence.
Qed.

Lemma filter_nonempty {A} (P : A → Prop) `{∀ x, Decision (P x)} (l : list A) :
  0 < length (filter P l) ↔ ∃ x, x ∈ l ∧ P x.
Proof.
  split.
  - destruct (filter P l) as [|x k] eqn:Hf; [cbn; lia |]. intros _.
    assert (x ∈ filter P l) as Hx by (rewrite Hf; by left).
    apply list_elem_of_filter in Hx as [HP Hx]. by exists x.
  - intros (x & Hx & HP).
    assert (x ∈ filter P l) as Hf by (by apply list_elem_of_filter).
    destruct (filter P l); [by apply elem_of_nil in Hf | cbn; lia].
Qed.

(** X2. With the service up and the date heading one of the columns A..Z,
    the update succeeds exactly when at least one record is named like the
    first cell of some row. Records without such a row are skipped: each is
    reported, in order, and the final message counts the records written. *)
Theorem update_skips_unknown_names :
  ∀ (headerRow : row) (rest : table) (date : string) (c : nat)
    (records : list AttendanceRecord),
    headerRow !! c = Some (VStr date) →
    (∀ j, j < c → headerRow !! j ≠ Some (VStr date)) →
    c < 26 →
    let values := headerRow :: rest in
    let known := λ rec : AttendanceRecord,
      findIndex (λ rw : row, strict_eq_str (rw !! 0) (name rec)) values in
    let result :=
      Sheet.updateAttendanceInSheet (Sheet.mkApi true true true true) values
        date records in
    (result.1.1 = true ↔
       ∃ rec rw, rec ∈ records ∧ rw ∈ values ∧ rw !! 0 = Some (VStr (name rec)))
    ∧ result.1.2
      = map (λ rec, LogNameNotFound (name rec))
          (filter (λ rec, known rec = None) records)
        ++ [if result.1.1
            then LogUpdated (length (filter (λ rec, known rec ≠ None) records))
            else LogNoValidRecords].
Proof.
  intros headerRow rest date c records Hc Hfirst Hlt values known result.
  subst values result. unfold Sheet.updateAttendanceInSheet.
  cbn [Sheet.client_ok Sheet.sheet_id Sheet.get_ok Sheet.batch_ok negb].
  rewrite (findIndex_header_date headerRow date c Hc Hfirst).
  pose proof (collect_batch_length (headerRow :: rest) (65 + c) records) as Hlen.
  pose proof (collect_logs (headerRow :: rest) (65 + c) records) as Hlogs.
  pose proof (collect_valid_refs (headerRow :: rest) c records Hlt) as Hvalid.
  destruct (Sheet.collect (headerRow :: rest) (65 + c) records) as [batch logs].
  cbn [fst snd] in Hlen, Hlogs, Hvalid. rewrite Hvalid. cbn [andb].
  assert (0 < length batch ↔
          ∃ rec rw, rec ∈ records ∧ rw ∈ headerRow :: rest
                    ∧ rw !! 0 = Some (VStr (name rec))) as Hsome.
  { rewrite Hlen, filter_nonempty. split.
    - intros (rec & Hin & (rw & Hrw & Hname)%findIndex_name_is_Some).
      by exists rec, rw.
    - intros (rec & rw & Hin & Hrw & Hname). exists rec. split; [done |].
      apply findIndex_name_is_Some. by exists rw. }
  destruct (0 <? length batch) eqn:Hpos; cbn [fst snd].
  - apply Nat.ltb_lt in Hpos. split; [by rewrite <- Hsome |].
    by rewrite Hlogs, Hlen.
  - apply Nat.ltb_ge in Hpos. split; [| by rewrite Hlogs].
    split; [done |]. intros H. apply Hsome in H. lia.
Qed.

Lemma update_skips_unknown_names_witness :
  (Sheet.updateAttendanceInSheet (Sheet.mkApi true true true true) Sample.sheet
     "7/13/2025" [mkRecord "Nobody" true; mkRecord "Doe, John" true]).1
  = (true, [LogNameNotFound "Nobody"; LogUpdated 1]).
Proof.
  pose proof (update_skips_unknown_names
                [VStr "Name"; VStr "7/20/2025"; VStr "7/13/2025"]
                [ [VStr "Smith, Jane"; VBool false; VStr "TRUE"];
                  [VStr "Doe, John"; VStr "true"] ]
                "7/13/2025" 2
                [mkRecord "Nobody" true; mkRecord "Doe, John" true] eq_refl) as H.
  cbn zeta in H. destruct H as [_ Hlogs].
  - intros j Hj. destruct j as [|[|j]]; [discriminate | discriminate | lia].
  - lia.
  - apply injective_projections; [done | exact Hlogs].
Defined.

(** *** Where the batch lands *)

Lemma set_col_same (rw : row) c v : Sheet.set_col rw c v !! c = Some v.
Proof.
  unfold Sheet.set_col. destruct (c <? length rw) eqn:E.
  - apply Nat.ltb_lt in E. by apply list_lookup_insert_eq.
  - apply Nat.ltb_ge in E. rewrite lookup_app_r by lia.
    rewrite lookup_app_r by (rewrite length_replicate; lia).
    rewrite length_replicate. by rewrite Nat.sub_diag.
Qed.

Lemma set_col_other (rw : row) c v c' v' :
  c' ≠ c → rw !! c' = Some v' → Sheet.set_col rw c v !! c' = Some v'.
Proof.
  intros Hne Hv'. unfold Sheet.set_col. destruct (c <? length rw).
  - by rewrite list_lookup_insert_ne.
  - rewrite lookup_app_l; [done | by eapply lookup_lt_Some].
Qed.


Lemma cell_kept (t : table) r c v r' c' v' :
  ¬ (r' = r ∧ c' = c) → Sheet.cell t r' c' = Some v' →
  Sheet.cell (Sheet.write_cell t r c v) r' c' = Some v'.
Proof.
  intros Hne. unfold Sheet.cell, Sheet.write_cell.
  destruct (decide (r' = r)) as [-> | Hr].
  - rewrite list_lookup_alter_eq. destruct (t !! r) as [rw|]; [| done]. cbn.
    apply set_col_other. naive_solver.
  - by rewrite list_lookup_alter_ne.
Qed.

Lemma apply_batch_length (t : table) batch :
  length (Sheet.apply_batch t batch) = length t.
Proof.
  unfold Sheet.apply_batch. revert t.
  induction batch as [|w batch IH]; intros t; [done |].
  cbn [foldl]. rewrite IH. apply write_cell_length.
Qed.

Lemma apply_batch_kept (t : table) batch r' c' v' :
  Forall (λ w, ¬ (r' = Sheet.w_row_number w - 1 ∧ c' = Sheet.w_column_code w - 65))
    batch →
  Sheet.cell t r' c' = Some v' →
  Sheet.cell (Sheet.apply_batch t batch) r' c' = Some v'.
Proof.
  unfold Sheet.apply_batch. revert t.
  induction batch as [|w batch IH]; intros t Hall Hcell; [done |].
  apply Forall_cons in Hall as [Hw Hall]. cbn [foldl]. apply IH; [done |].
  by apply cell_kept.
Qed.


(** X3. An update never removes or adds a row, and it leaves every cell
    that is there and stands outside the column of the requested date with
    the value it had. *)
Theorem update_stays_in_date_column :
  ∀ (a : Sheet.api) (headerRow : row) (rest : table) (date : string) (c : nat)
    (records : list AttendanceRecord),
    findIndex (λ header, strict_eq_str (Some header) date) headerRow = Some c →
    let values := headerRow :: rest in
    let values' := (Sheet.updateAttendanceInSheet a values date records).2 in
    length values' = length values
    ∧ ∀ r c' v, c' ≠ c → Sheet.cell values r c' = Some v →
                Sheet.cell values' r c' = Some v.
Proof.
  intros a headerRow rest date c records Hdate values values'.
  subst values values'. unfold Sheet.updateAttendanceInSheet.
  destruct (Sheet.client_ok a); cbn [negb]; [| done].
  destruct (Sheet.sheet_id a); cbn [negb]; [| done].
  destruct (Sheet.get_ok a); cbn [negb]; [| done].
  rewrite Hdate.
  pose proof (collect_writes (headerRow :: rest) (65 + c) records) as Hwrites.
  destruct (Sheet.collect (headerRow :: rest) (65 + c) records) as [batch logs].
  cbn [fst] in Hwrites.
  destruct (0 <? length batch); [| done].
  destruct (Sheet.batch_ok a && forallb Sheet.valid_ref batch); [| done].
  cbn [snd]. split; [apply apply_batch_length |].
  intros r c' v Hne Hcell. apply apply_batch_kept; [| done].
  apply Forall_forall. intros w Hw.
  destruct (Hwrites w Hw) as [Hcol _]. rewrite Hcol. lia.
Qed.

Lemma update_stays_in_date_column_witness :
  let values' :=
    (Sheet.updateAttendanceInSheet Sample.service_up Sample.sheet "7/20/2025"
       [mkRecord "Doe, John" false]).2 in
  length values' = 3
  ∧ Sheet.cell values' 2 0 = Some (VStr "Doe, John").
Proof.
  destruct (update_stays_in_date_column Sample.service_up
              [VStr "Name"; VStr "7/20/2025"; VStr "7/13/2025"]
              [ [VStr "Smith, Jane"; VBool false; VStr "TRUE"];
                [VStr "Doe, John"; VStr "true"] ]
              "7/20/2025" 1 [mkRecord "Doe, John" false] eq_refl) as [Hlen Hkeep].
  split; [exact Hlen |].
  exact (Hkeep 2 0 (VStr "Doe, John") ltac:(lia) eq_refl).
Defined.



End UpdateFacts.

(** ** The shape of what a read returns *)

Section FetchFacts.

Lemma forEach_date_dom (rw : row) ds index (att : gmap string bool) :
  dom (Sheet.forEach_date rw ds index att)
  = dom att ∪ list_to_set (map to_key ds).
Proof.
  revert index att. induction ds as [|d ds IH]; intros index att.
  - cbn. set_solver.
  - cbn [Sheet.forEach_date map list_to_set]. rewrite IH, dom_insert_L.
    set_solver.
Qed.

(** X5. A read of a sheet with a header returns the header without its
    first cell as the dates and one person per row below the header, in
    order, named by the row's first cell; when every date key of the header
    is one a plain object stores ([own_key]: any key but "__proto__"),
    every person carries a boolean for each date key of the header and for
    nothing else, also when the row is shorter than the header. *)
Theorem fetch_covers_every_date :
  ∀ (a : Sheet.api) (headerRow : row) (rest : table),
    Sheet.client_ok a = true → Sheet.sheet_id a = true → Sheet.get_ok a = true →
    ∃ data,
      Sheet.getAttendanceDataFromSheet a (headerRow :: rest)
      = Sheet.Returned data []
      ∧ Sheet.dates data = drop 1 headerRow
      ∧ length (Sheet.attendanceData data) = length rest
      ∧ ∀ k rw, rest !! k = Some rw →
          ∃ p, Sheet.attendanceData data !! k = Some p
               ∧ Sheet.p_name p = rw !! 0
               ∧ ((∀ date, date ∈ drop 1 headerRow → own_key (to_key date)) →
                  dom (Sheet.p_attendance p)
                  = list_to_set (map to_key (drop 1 headerRow))).
Proof.
  intros a headerRow rest Hc Hs Hg.
  unfold Sheet.getAttendanceDataFromSheet. rewrite Hc, Hs, Hg. cbn [andb].
  eexists. split; [done |]. cbn [Sheet.dates Sheet.attendanceData].
  split; [done |]. split; [apply length_map |].
  intros k rw Hrw. exists (Sheet.row_to_person (drop 1 headerRow) rw).
  split; [by rewrite list_lookup_fmap, Hrw |]. split; [done |]. intros _.
  unfold Sheet.row_to_person. cbn [Sheet.p_attendance].
  rewrite forEach_date_dom. set_solver.
Qed.

Lemma fetch_covers_every_date_witness :
  ∃ data p,
    Sheet.getAttendanceDataFromSheet Sample.service_up Sample.sheet
    = Sheet.Returned data []
    ∧ Sheet.attendanceData data !! 1 = Some p
    ∧ dom (Sheet.p_attendance p) = {[ "7/20/2025"; "7/13/2025" ]}.
Proof.
  destruct (fetch_covers_every_date Sample.service_up
              [VStr "Name"; VStr "7/20/2025"; VStr "7/13/2025"]
              [ [VStr "Smith, Jane"; VBool false; VStr "TRUE"];
                [VStr "Doe, John"; VStr "true"] ] eq_refl eq_refl eq_refl)
    as (data & Hget & _ & _ & Hrows).
  destruct (Hrows 1 [VStr "Doe, John"; VStr "true"] eq_refl)
    as (p & Hp & _ & Hdom).
  exists data, p. split; [done |]. split; [done |].
  rewrite Hdom.
  - cbn. set_solver.
  - intros date Hin. apply list_elem_of_In in Hin. simpl in Hin.
    destruct Hin as [<-|[<-|[]]]; discriminate.
Defined.

End FetchFacts.

(** ** A session: select, toggle, save *)

Section SessionFacts.
Import ViewModel.

(** The matrix after a checkbox change at [i]. *)
Lemma toggle_closed_form i v s :
  handleAttendanceChange i v s
  = match attendanceRecords s !! i with
    | None => None
    | Some r =>
        Some (mkState (<[i := {| name := name r; present := v |}]> (attendanceRecords s))
                (loading s) (saving s) (error s) (saveError s) (saveSuccess s)
                (availableDates s) (selectedDate s)
                (match fullAttendanceData s !! i with
                 | Some p =>
                     if bool_decide (selectedDate s ≠ "") then
                       <[i := {| person_name := person_name p;
                                 attendance := <[selectedDate s := v]> (attendance p) |}]>
                         (fullAttendanceData s)
                     else fullAttendanceData s
                 | None => fullAttendanceData s
                 end)
                (authRequired s))
    end.
Proof.
  unfold handleAttendanceChange.
  destruct (attendanceRecords s !! i) as [r|]; [| done].
  destruct (fullAttendanceData s !! i) as [p|]; [| done].
  by case_bool_decide.
Qed.


Lemma load_consistent status data d ds s :
  ok status = true → dates data = d :: ds →
  Session.consistent (fetchAttendanceData (Replied status (Some data)) s).
Proof.
  intros Hok Hd. unfold Session.consistent, fetchAttendanceData.
  by rewrite Hok, Hd.
Qed.

(** X21. A checkbox change throws exactly when its index is outside the
    view. Inside the view it always succeeds, replaces that view entry by
    one of the same name with the new boolean and keeps the selected date;
    when the matrix has no person at that index, or no date is selected,
    the matrix is left as it is. *)
Theorem toggle_throws_only_out_of_range :
  ∀ (s : state) (i : nat) (v : bool),
    (handleAttendanceChange i v s = None ↔ length (attendanceRecords s) ≤ i)
    ∧ (∀ r, attendanceRecords s !! i = Some r →
         ∃ s', handleAttendanceChange i v s = Some s'
               ∧ attendanceRecords s'
                 = <[i := {| name := name r; present := v |}]> (attendanceRecords s)
               ∧ selectedDate s' = selectedDate s
               ∧ (fullAttendanceData s !! i = None ∨ selectedDate s = "" →
                  fullAttendanceData s' = fullAttendanceData s)).
Proof.
  intros s i v. rewrite toggle_closed_form. split.
  - destruct (attendanceRecords s !! i) as [r|] eqn:Hr.
    + split; [done |]. intros Hi. apply lookup_ge_None_2 in Hi. congruence.
    + split; [| done]. intros _. by apply lookup_ge_None_1.
  - intros r ->. eexists. split; [done |]. split; [done |]. split; [done |].
    cbn [fullAttendanceData]. intros Hskip.
    destruct Hskip as [-> | ->]; [done |].
    destruct (fullAttendanceData s !! i); [| done].
    by rewrite bool_decide_eq_false_2 by (intros H; by apply H).
Qed.

Lemma toggle_throws_only_out_of_range_witness :
  handleAttendanceChange 3 true Sample.loaded = None
  ∧ ∃ s', handleAttendanceChange 0 true Session.after_empty_refresh = Some s'
          ∧ attendanceRecords s' = [{| name := "Smith, Jane"; present := true |}]
          ∧ selectedDate s' = "7/20/2025"
          ∧ fullAttendanceData s' = [].
Proof.
  split.
  - apply (proj1 (toggle_throws_only_out_of_range Sample.loaded 3 true)).
    cbn. lia.
  - destruct (proj2 (toggle_throws_only_out_of_range
                       Session.after_empty_refresh 0 true)
                {| name := "Smith, Jane"; present := false |} eq_refl)
      as (s' & Htoggle & Hview & Hdate & Hmatrix).
    exists s'. split; [done |]. split; [done |]. split; [done |].
    apply Hmatrix. by left.
Defined.



(** X7. Checkbox changes of two different rows can be made in either order:
    both orders throw or both end in the same state. *)
Theorem toggles_of_different_rows_commute :
  ∀ (s : state) (i j : nat) (v w : bool),
    i ≠ j →
    handleAttendanceChange i v s ≫= handleAttendanceChange j w
    = handleAttendanceChange j w s ≫= handleAttendanceChange i v.
Proof.
  intros s i j v w Hne.
  rewrite (toggle_closed_form i v s), (toggle_closed_form j w s).
  destruct (attendanceRecords s !! i) as [ri|] eqn:Hi;
    destruct (attendanceRecords s !! j) as [rj|] eqn:Hj; cbn [mbind option_bind];
    rewrite ?toggle_closed_form;
    cbn [attendanceRecords fullAttendanceData selectedDate loading saving error
         saveError saveSuccess availableDates authRequired];
    rewrite ?list_lookup_insert_ne by done; rewrite ?Hi, ?Hj; try done.
  f_equal.
  destruct (fullAttendanceData s !! i) as [pi|] eqn:Hpi;
    destruct (fullAttendanceData s !! j) as [pj|] eqn:Hpj;
    case_bool_decide;
    rewrite ?list_lookup_insert_ne by done; rewrite ?Hpi, ?Hpj;
    f_equal; by rewrite list_insert_insert_ne.
Qed.

Lemma toggles_of_different_rows_commute_witness :
  ∃ s',
    handleAttendanceChange 0 true Session.two_people
      ≫= handleAttendanceChange 1 false = Some s'
    ∧ handleAttendanceChange 1 false Session.two_people
        ≫= handleAttendanceChange 0 true = Some s'
    ∧ attendanceRecords s'
      = [ {| name := "Smith, Jane"; present := true |};
          {| name := "Doe, John"; present := false |} ]
    ∧ attendanceRecords Session.two_people
      = [ {| name := "Smith, Jane"; present := false |};
          {| name := "Doe, John"; present := true |} ].
Proof.
  eexists. split; [| split].
  - rewrite (toggles_of_different_rows_commute Session.two_people 0 1 true false)
      by lia.
    reflexivity.
  - reflexivity.
  - by split.
Defined.

Lemma state_eta s :
  mkState (attendanceRecords s) (loading s) (saving s) (error s) (saveError s)
    (saveSuccess s) (availableDates s) (selectedDate s) (fullAttendanceData s)
    (authRequired s) = s.
Proof. by destruct s. Qed.

(** X8. Two clicks on the same row undo each other: in a state whose view
    follows the matrix, and with an entry for the selected date in that
    person's attendance (a read stores one for every date), the second
    click gives back the very state before the first. *)
Theorem double_click_restores :
  ∀ (s : state) (i : nat),
    Session.consistent s →
    i < length (attendanceRecords s) →
    (∀ p, fullAttendanceData s !! i = Some p →
          is_Some (attendance p !! selectedDate s)) →
    Session.clickRow i s ≫= Session.clickRow i = Some s.
Proof.
  intros s i Hcons Hi Hkey. unfold Session.clickRow.
  destruct (lookup_lt_is_Some_2 _ _ Hi) as [r Hr]. rewrite Hr.
  rewrite toggle_closed_form, Hr. cbn [mbind option_bind attendanceRecords].
  rewrite list_lookup_insert_eq by done.
  rewrite toggle_closed_form.
  cbn [attendanceRecords fullAttendanceData selectedDate loading saving error
       saveError saveSuccess availableDates authRequired name present].
  rewrite list_lookup_insert_eq by done. rewrite negb_involutive.
  rewrite list_insert_insert_eq.
  rewrite (list_insert_id (attendanceRecords s) i) by (rewrite Hr; by destruct r).
  f_equal. etransitivity; [| exact (state_eta s)]. f_equal.
  destruct (fullAttendanceData s !! i) as [p|] eqn:Hp; [| by rewrite Hp].
  case_bool_decide; [| by rewrite Hp].
  rewrite list_lookup_insert_eq by (by eapply lookup_lt_Some).
  cbn [person_name attendance]. rewrite list_insert_insert_eq, insert_insert_eq.
  apply list_insert_id. rewrite Hp. f_equal.
  destruct (Hkey p eq_refl) as [b Hb].
  unfold Session.consistent in Hcons. rewrite Hcons, list_lookup_fmap, Hp in Hr.
  injection Hr as <-. cbn [record_for present].
  rewrite present_on_lookup, Hb. cbn [default].
  rewrite insert_id by done. by destruct p.
Qed.

Lemma double_click_restores_witness :
  Session.clickRow 0 Sample.loaded ≫= Session.clickRow 0 = Some Sample.loaded.
Proof.
  apply (double_click_restores Sample.loaded 0).
  - exact (load_consistent 200
             {| dates := ["7/20/2025"; "7/13/2025"]; attendanceData := [Sample.jane] |}
             "7/20/2025" ["7/13/2025"] initial eq_refl eq_refl).
  - cbn. lia.
  - intros p [= <-]. by eexists.
Defined.

(** X9. The client reports a successful save exactly when a date is
    selected and the update on the server returned [true]; otherwise it
    shows an error and the sheet is as before. Either way the view, the
    matrix and the selected date are kept, so unsaved edits survive a failed
    save. *)
Theorem save_reports_the_update :
  ∀ (a : Sheet.api) (values : table) (s : state),
    let s' := (App.save a values s).1 in
    (saveSuccess s' = true ↔
       selectedDate s ≠ ""
       ∧ (Sheet.updateAttendanceInSheet a values (selectedDate s)
            (attendanceRecords s)).1.1 = true)
    ∧ (saveSuccess s' = false →
       is_Some (saveError s') ∧ (App.save a values s).2 = values)
    ∧ saving s' = false
    ∧ attendanceRecords s' = attendanceRecords s
    ∧ fullAttendanceData s' = fullAttendanceData s
    ∧ selectedDate s' = selectedDate s.
Proof.
  intros a values s s'. subst s'.
  unfold App.save, Sheet.updateAttendance, updateData.
  cbn [Sheet.req_date Sheet.req_attendance].
  case_bool_decide as Hdate.
  - cbn. repeat split; try done; try (by eexists). by intros [? _].
  - pose proof (update_false_unchanged a values (selectedDate s)
                  (attendanceRecords s)) as Hkeep.
    destruct (Sheet.updateAttendanceInSheet a values (selectedDate s)
                (attendanceRecords s)) as [[[] logs] values']; cbn in *.
    + repeat split; done.
    + repeat split; try done; try (by eexists); try (by intros [_ ?]); auto.
Qed.

Lemma save_reports_the_update_witness :
  is_Some (saveError (App.save (Sheet.mkApi true true true false) Sample.sheet
                        Sample.loaded).1)
  ∧ (App.save (Sheet.mkApi true true true false) Sample.sheet Sample.loaded).2
    = Sample.sheet.
Proof.
  exact (proj1 (proj2 (save_reports_the_update (Sheet.mkApi true true true false)
                         Sample.sheet Sample.loaded)) eq_refl).
Defined.

(** *** Load, edit, save, load again *)

Lemma toggles_keep_names ts s s' :
  Session.toggles ts s = Some s' →
  map name (attendanceRecords s') = map name (attendanceRecords s)
  ∧ selectedDate s' = selectedDate s.
Proof.
  revert s. induction ts as [|[i v] ts IH]; intros s; cbn [Session.toggles].
  - by intros [= <-].
  - rewrite toggle_closed_form.
    destruct (attendanceRecords s !! i) as [r|] eqn:Hr; [| done].
    cbn [mbind option_bind]. intros [Hnames Hdate]%IH. rewrite Hnames, Hdate.
    cbn [attendanceRecords selectedDate]. split; [| done].
    change (map name) with (fmap (M:=list) name).
    rewrite list_fmap_insert. cbn [name]. apply list_insert_id.
    by rewrite list_lookup_fmap, Hr.
Qed.

Lemma collect_rows (values : table) col records o :
  (∀ k rec, records !! k = Some rec →
     findIndex (λ rw : row, strict_eq_str (rw !! 0) (name rec)) values
     = Some (o + k)) →
  Sheet.collect values col records
  = (imap (λ k rec, Sheet.mkWrite col (o + k + 1) (present rec)) records, []).
Proof.
  revert o. induction records as [|rec records IH]; intros o Hfound; [done |].
  cbn [Sheet.collect]. rewrite (IH (S o)).
  - rewrite (Hfound 0 rec eq_refl). rewrite imap_cons. do 2 f_equal.
    apply imap_ext. intros k rec' _. cbn. f_equal. lia.
  - intros k rec' Hk. rewrite (Hfound (S k) rec' Hk). f_equal. lia.
Qed.

Lemma apply_column_batch c (records : list AttendanceRecord) (pre rows : table) :
  length records = length rows →
  foldl Sheet.apply_write (pre ++ rows)
    (imap (λ k rec, Sheet.mkWrite (65 + c) (length pre + k + 1) (present rec))
       records)
  = pre ++ zip_with (λ rw rec, Sheet.set_col rw c (VBool (present rec)))
             rows records.
Proof.
  revert pre rows. induction records as [|rec records IH]; intros pre rows Hlen.
  - destruct rows; [done | discriminate Hlen].
  - destruct rows as [|rw rows]; [discriminate Hlen |].
    rewrite imap_cons. cbn [foldl zip_with].
    rewrite apply_write_located. unfold Sheet.write_cell.
    rewrite alter_app_r. cbn [alter list_alter].
    rewrite (cons_middle _ pre rows), app_assoc.
    erewrite imap_ext; [rewrite (IH (pre ++ [Sheet.set_col rw c (VBool (present rec))]) rows) |].
    + by rewrite <- app_assoc.
    + cbn in Hlen. lia.
    + intros k rec' _. cbn. rewrite length_app. cbn. f_equal. lia.
Qed.

Lemma reload_rows ds d0 (rest : table) (view : list AttendanceRecord) :
  Forall2 (λ (rw : row) rec, rw !! 0 = Some (VStr (name rec))) rest view →
  ds !! 0 = Some (VStr d0) →
  (∀ j' date', 0 < j' → ds !! j' = Some date' → to_key date' ≠ d0) →
  ∃ ps,
    mapM App.json_person
      (map (Sheet.row_to_person ds)
         (zip_with (λ rw rec, Sheet.set_col rw 1 (VBool (present rec))) rest view))
    = Some ps
    ∧ map (record_for d0) ps = view.
Proof.
  intros Hnames Hd0 Hlast. induction Hnames as [|rw rec rest view Hname _ IH].
  - by exists [].
  - destruct IH as (ps & Hps & Hview).
    set (rw' := Sheet.set_col rw 1 (VBool (present rec))).
    assert (rw' !! 0 = Some (VStr (name rec))) as Hname'
      by (by apply set_col_other).
    exists ({| person_name := name rec;
               attendance := Sheet.forEach_date rw' ds 0 ∅ |} :: ps).
    cbn [zip_with map]. fold rw'. split.
    + apply mapM_Some_2. constructor; [| by apply mapM_Some_1].
      unfold App.json_person, Sheet.row_to_person.
      cbn [Sheet.p_name Sheet.p_attendance]. by rewrite Hname'.
    + cbn [map]. rewrite Hview. f_equal.
      unfold record_for. cbn [person_name]. rewrite present_on_lookup.
      cbn [attendance]. change d0 with (to_key (VStr d0)).
      rewrite (forEach_date_lookup rw' ds 0 ∅ 0 (VStr d0) Hd0 Hlast).
      cbn [Nat.add default]. unfold rw'. rewrite set_col_same, cell_present_bool.
      by destruct rec.
Qed.

(** What a first load of a sheet with a first date [d0] leaves behind. *)
Lemma first_load (headerRow : row) (rest : table) d0 s0 s1 :
  NoDup headerRow →
  headerRow !! 1 = Some (VStr d0) →
  App.loadAll (Sheet.mkApi true true true true) (headerRow :: rest) s0 = Some s1 →
  (∃ ds', mapM (λ v, App.json_text (Some v)) (drop 1 headerRow) = Some (d0 :: ds'))
  ∧ (∀ j' date', 0 < j' → drop 1 headerRow !! j' = Some date' → to_key date' ≠ d0)
  ∧ selectedDate s1 = d0
  ∧ Forall2 (λ (rw : row) rec,
               rw !! 0 = Some (VStr (name rec))
               ∧ present rec = Sheet.cell_present (rw !! 1))
      rest (attendanceRecords s1).
Proof.
  intros Hheader Hd0 Hload.
  unfold App.loadAll, Sheet.getAttendanceData, Sheet.getAttendanceDataFromSheet
    in Hload.
  cbn [Sheet.client_ok Sheet.sheet_id Sheet.get_ok andb] in Hload.
  unfold App.json_payload in Hload. cbn [Sheet.dates Sheet.attendanceData] in Hload.
  destruct (mapM (λ v, App.json_text (Some v)) (drop 1 headerRow))
    as [ds|] eqn:Hds; [| done].
  cbn [mbind option_bind] in Hload.
  destruct (mapM App.json_person (map (Sheet.row_to_person (drop 1 headerRow)) rest))
    as [ps|] eqn:Hps; [| done].
  cbn [mbind option_bind] in Hload. injection Hload as Hs1.
  pose proof (mapM_Some_1 _ _ _ Hds) as Hdates.
  assert (∀ j' date', 0 < j' → drop 1 headerRow !! j' = Some date' →
                      to_key date' ≠ d0) as Hlast.
  { intros j' date' Hj' Hdate'.
    destruct (Forall2_lookup_l _ _ _ _ _ Hdates Hdate') as (t & _ & Ht).
    destruct date' as [t'|b]; [| done]. cbn [to_key]. intros ->.
    rewrite lookup_drop in Hdate'.
    pose proof (NoDup_lookup headerRow (1 + j') 1 (VStr d0) Hheader Hdate' Hd0).
    lia. }
  assert (∃ ds', ds = d0 :: ds') as [ds' ->].
  { destruct ds as [|d ds'].
    - apply Forall2_nil_inv_r in Hdates.
      assert (drop 1 headerRow !! 0 = Some (VStr d0)) as H0
        by (by rewrite lookup_drop).
      by rewrite Hdates in H0.
    - exists ds'. f_equal.
      destruct (Forall2_lookup_r _ _ _ 0 d Hdates eq_refl) as (v & Hv & Ht).
      rewrite lookup_drop in Hv. cbn in Hv. rewrite Hd0 in Hv.
      injection Hv as <-. cbn in Ht. congruence. }
  split; [by exists ds' |]. split; [done |].
  assert (attendanceRecords s1 = map (record_for d0) ps ∧ selectedDate s1 = d0)
    as [Hview1 Hsel1] by (by subst s1).
  split; [done |]. rewrite Hview1. apply Forall2_fmap_r.
  apply mapM_Some_1, Forall2_fmap_l in Hps.
  eapply Forall2_impl; [exact Hps |]. intros rw p Hp. cbn in Hp.
  unfold App.json_person, Sheet.row_to_person in Hp. cbn in Hp.
  destruct (rw !! 0) as [[n|b]|]; try done. cbn in Hp.
  injection Hp as <-. split; [done |].
  cbn [record_for present]. rewrite present_on_lookup. cbn [attendance].
  change d0 with (to_key (VStr d0)).
  rewrite (forEach_date_lookup rw (drop 1 headerRow) 0 ∅ 0 (VStr d0)); [done | | done].
  by rewrite lookup_drop.
Qed.

(** A save of a view whose records are named like the rows, in order,
    stores every record's boolean in column B of its row. *)
Lemma save_writes_view (headerRow : row) (rest : table) d0 s :
  NoDup headerRow →
  NoDup (map (λ rw : row, rw !! 0) (headerRow :: rest)) →
  headerRow !! 1 = Some (VStr d0) →
  d0 ≠ "" →
  selectedDate s = d0 →
  Forall2 (λ (rw : row) rec, rw !! 0 = Some (VStr (name rec))) rest
    (attendanceRecords s) →
  App.save (Sheet.mkApi true true true true) (headerRow :: rest) s
  = (saveAttendanceData
       (Replied (if bool_decide (rest = []) then 500 else 200) (Some ())) s,
     headerRow :: zip_with (λ rw rec, Sheet.set_col rw 1 (VBool (present rec)))
                    rest (attendanceRecords s)).
Proof.
  intros Hheader Hfirsts Hd0 Hne Hsel Hnames.
  set (view := attendanceRecords s) in *.
  unfold App.save, Sheet.updateAttendance, updateData.
  cbn [Sheet.req_date Sheet.req_attendance]. fold view. rewrite Hsel.
  rewrite bool_decide_eq_false_2 by done.
  unfold Sheet.updateAttendanceInSheet.
  cbn [Sheet.client_ok Sheet.sheet_id Sheet.get_ok Sheet.batch_ok negb].
  rewrite (findIndex_header_date headerRow d0 1 Hd0).
  2:{ intros j Hj Hsame0. assert (j = 0) as -> by lia.
      pose proof (NoDup_lookup headerRow 0 1 (VStr d0) Hheader Hsame0 Hd0). lia. }
  pose proof (collect_valid_refs (headerRow :: rest) 1 view ltac:(lia)) as Hvalid.
  rewrite (collect_rows (headerRow :: rest) (65 + 1) view 1) in Hvalid |- *.
  2,3: intros k rec Hrec;
    destruct (Forall2_lookup_r _ _ _ k rec Hnames Hrec) as (rw & Hrw & Hname);
    apply (findIndex_first_match (headerRow :: rest) (name rec) (1 + k) rw);
      [done | done |];
    intros j rw' Hj Hrw' Hsame0;
    assert (j = 1 + k); [| lia];
    apply (NoDup_lookup _ j (1 + k) (Some (VStr (name rec))) Hfirsts);
      [ by rewrite list_lookup_fmap, Hrw', <- Hsame0
      | rewrite list_lookup_fmap;
        change ((headerRow :: rest) !! (1 + k)) with (rest !! k);
        by rewrite Hrw, <- Hname ].
  cbn [fst] in Hvalid. rewrite Hvalid. cbn [andb]. rewrite length_imap.
  pose proof (Forall2_length _ _ _ Hnames) as Hlen.
  destruct rest as [|rw0 rest'].
  - destruct view; [| discriminate Hlen]. done.
  - destruct view as [|rec0 view']; [discriminate Hlen |].
    rewrite bool_decide_eq_false_2 by done. cbn [length Nat.ltb Nat.leb].
    unfold Sheet.apply_batch. f_equal.
    exact (apply_column_batch 1 (rec0 :: view') [headerRow] (rw0 :: rest')
             (eq_sym Hlen)).
Qed.

Lemma typed_sheet_loads (headerRow : row) (rest : table) s0 :
  (∀ date, date ∈ drop 1 headerRow → ∃ t, date = VStr t) →
  (∀ rw : row, rw ∈ rest → ∃ n, rw !! 0 = Some (VStr n)) →
  is_Some (App.loadAll (Sheet.mkApi true true true true) (headerRow :: rest) s0).
Proof.
  intros Hdates Hnames.
  unfold App.loadAll, Sheet.getAttendanceData, Sheet.getAttendanceDataFromSheet.
  cbn [Sheet.client_ok Sheet.sheet_id Sheet.get_ok andb].
  unfold App.json_payload. cbn [Sheet.dates Sheet.attendanceData].
  assert (is_Some (mapM (λ v, App.json_text (Some v)) (drop 1 headerRow)))
    as [ds ->].
  { apply mapM_is_Some, Forall_forall. intros v Hv.
    destruct (Hdates v Hv) as [t ->]. by eexists. }
  cbn [mbind option_bind].
  assert (is_Some (mapM App.json_person
                     (Sheet.row_to_person (drop 1 headerRow) <$> rest)))
    as [ps Hps].
  { apply mapM_is_Some, Forall_forall. intros p Hp.
    apply list_elem_of_fmap in Hp as (rw & -> & Hrw).
    destruct (Hnames rw Hrw) as [n Hn].
    unfold App.json_person, Sheet.row_to_person. cbn [Sheet.p_name compose].
    rewrite Hn. by eexists. }
  change (map (Sheet.row_to_person (drop 1 headerRow)) rest)
    with (Sheet.row_to_person (drop 1 headerRow) <$> rest).
  rewrite Hps. by eexists.
Qed.

(** X10. What is saved is what the next load shows. On a sheet whose date
    headers and names are text, whose header cells are pairwise distinct,
    whose rows (header included) have pairwise distinct first cells and
    whose first date is a non-empty key a plain object stores: the load
    succeeds; after any checkbox changes that do not throw, a save and a
    second load, the second load succeeds and its view is the view that was
    saved, for the same selected date; and the save is reported as
    successful when there is at least one person. *)
Theorem saved_view_is_reloaded :
  ∀ (headerRow : row) (rest : table) (d0 : string) (ts : list (nat * bool))
    (s0 : state),
    let up := Sheet.mkApi true true true true in
    NoDup headerRow →
    NoDup (map (λ rw : row, rw !! 0) (headerRow :: rest)) →
    (∀ date, date ∈ drop 1 headerRow → ∃ t, date = VStr t) →
    (∀ rw : row, rw ∈ rest → ∃ n, rw !! 0 = Some (VStr n)) →
    headerRow !! 1 = Some (VStr d0) →
    d0 ≠ "" →
    own_key d0 →
    ∃ s1,
      App.loadAll up (headerRow :: rest) s0 = Some s1
      ∧ ∀ s2, Session.toggles ts s1 = Some s2 →
          ∃ s4,
            App.loadAll up (App.save up (headerRow :: rest) s2).2
              (App.save up (headerRow :: rest) s2).1 = Some s4
            ∧ attendanceRecords s4 = attendanceRecords s2
            ∧ selectedDate s4 = selectedDate s2
            ∧ (rest ≠ [] →
               saveSuccess (App.save up (headerRow :: rest) s2).1 = true).
Proof.
  intros headerRow rest d0 ts s0 up Hheader Hfirsts Hdates Htext Hd0 Hne _.
  destruct (typed_sheet_loads headerRow rest s0 Hdates Htext) as [s1 Hload].
  exists s1. split; [exact Hload |]. intros s2 Htoggles.
  destruct (first_load headerRow rest d0 s0 s1 Hheader Hd0 Hload)
    as ((ds' & Hds) & Hlast & Hsel1 & Hloaded).
  assert (Forall2 (λ (rw : row) rec, rw !! 0 = Some (VStr (name rec))) rest
            (attendanceRecords s1)) as Hnames1
    by (eapply Forall2_impl; [exact Hloaded | by intros rw rec [? _]]).
  (* the edits keep the names and the selected date *)
  destruct (toggles_keep_names ts s1 s2 Htoggles) as [Hsame Hsel2].
  rewrite Hsel1 in Hsel2.
  assert (Forall2 (λ (rw : row) rec, rw !! 0 = Some (VStr (name rec))) rest
            (attendanceRecords s2)) as Hnames2.
  { apply Forall2_same_length_lookup. split.
    - rewrite (Forall2_length _ _ _ Hnames1).
      by rewrite <- (length_map name (attendanceRecords s1)), <- Hsame, length_map.
    - intros k rw rec Hrw Hrec.
      assert (map name (attendanceRecords s2) !! k = Some (name rec)) as Hn
        by (by rewrite list_lookup_fmap, Hrec).
      rewrite Hsame, list_lookup_fmap in Hn.
      destruct (attendanceRecords s1 !! k) as [rec1|] eqn:Hrec1; [| done].
      injection Hn as <-.
      by apply (Forall2_lookup_lr _ _ _ k rw rec1 Hnames1). }
  (* the save *)
  subst up.
  rewrite (save_writes_view headerRow rest d0 s2 Hheader Hfirsts Hd0 Hne Hsel2 Hnames2).
  cbn [fst snd].
  (* the second load *)
  destruct (reload_rows (drop 1 headerRow) d0 rest (attendanceRecords s2) Hnames2)
    as (ps' & Hps' & Hview'); [by rewrite lookup_drop | done |].
  unfold App.loadAll, Sheet.getAttendanceData, Sheet.getAttendanceDataFromSheet.
  cbn [Sheet.client_ok Sheet.sheet_id Sheet.get_ok andb].
  unfold App.json_payload. cbn [Sheet.dates Sheet.attendanceData].
  rewrite Hds. cbn [mbind option_bind]. rewrite Hps'. cbn [mbind option_bind].
  eexists. split; [done |].
  unfold fetchAttendanceData. cbn.
  split; [exact Hview' |]. split; [done |].
  intros Hrest. rewrite bool_decide_eq_false_2 by done. done.
Qed.

Lemma saved_view_is_reloaded_witness :
  ∃ s1 s2 s4,
    App.loadAll Sample.service_up Sample.sheet initial = Some s1
    ∧ Session.toggles [(1, false); (0, true)] s1 = Some s2
    ∧ App.loadAll Sample.service_up (App.save Sample.service_up Sample.sheet s2).2
        (App.save Sample.service_up Sample.sheet s2).1 = Some s4
    ∧ attendanceRecords s4 = attendanceRecords s2
    ∧ attendanceRecords s2
      = [ {| name := "Smith, Jane"; present := true |};
          {| name := "Doe, John"; present := false |} ].
Proof.
  destruct (saved_view_is_reloaded
              [VStr "Name"; VStr "7/20/2025"; VStr "7/13/2025"]
              [ [VStr "Smith, Jane"; VBool false; VStr "TRUE"];
                [VStr "Doe, John"; VStr "true"] ]
              "7/20/2025" [(1, false); (0, true)] initial)
    as (s1 & Hload & Hrest).
  - apply (bool_decide_unpack _). by vm_compute.
  - apply (bool_decide_unpack _). by vm_compute.
  - intros date Hin. apply list_elem_of_In in Hin. simpl in Hin.
    destruct Hin as [<-|[<-|[]]]; by eexists.
  - intros rw Hin. apply list_elem_of_In in Hin. simpl in Hin.
    destruct Hin as [<-|[<-|[]]]; by eexists.
  - done.
  - discriminate.
  - discriminate.
  - assert (s1 = fetchAttendanceData
                   (Replied 200
                      (App.json_payload
                         {| Sheet.dates := [VStr "7/20/2025"; VStr "7/13/2025"];
                            Sheet.attendanceData :=
                              map (Sheet.row_to_person
                                     [VStr "7/20/2025"; VStr "7/13/2025"])
                                [ [VStr "Smith, Jane"; VBool false; VStr "TRUE"];
                                  [VStr "Doe, John"; VStr "true"] ] |}))
                   initial) as Hs1.
    { vm_compute in Hload. injection Hload as <-. by vm_compute. }
    destruct (Session.toggles [(1, false); (0, true)] s1) as [s2|] eqn:Htoggles;
      [| rewrite Hs1 in Htoggles; vm_compute in Htoggles; discriminate Htoggles].
    destruct (Hrest s2 eq_refl) as (s4 & Hreload & Hview & _).
    exists s1, s2, s4. split; [exact Hload |]. split; [done |].
    split; [exact Hreload |]. split; [exact Hview |].
    rewrite Hs1 in Htoggles. vm_compute in Htoggles. by injection Htoggles as <-.
Defined.

Lemma update_true_service_up a (values : table) date records :
  (Sheet.updateAttendanceInSheet a values date records).1.1 = true →
  a = Sheet.mkApi true true true true.
Proof.
  unfold Sheet.updateAttendanceInSheet.
  destruct a as [[] [] [] []]; cbn [Sheet.client_ok Sheet.sheet_id Sheet.get_ok
    Sheet.batch_ok negb]; try done.
  destruct values as [|headerRow rest]; [done |].
  destruct (findIndex _ headerRow); [| done].
  destruct (Sheet.collect _ _ records) as [batch logs].
  by destruct (0 <? length batch).
Qed.

(** X20. On a sheet of checkboxes a save right after a load writes back
    what is there: with pairwise distinct header cells, pairwise distinct
    first cells and a boolean in column B of every row below the header, the
    sheet after the save is the sheet before it, cell for cell. *)
Theorem checkbox_sheet_survives_noop_save :
  ∀ (a : Sheet.api) (headerRow : row) (rest : table) (d0 : string) (s0 s1 : state),
    NoDup headerRow →
    NoDup (map (λ rw : row, rw !! 0) (headerRow :: rest)) →
    headerRow !! 1 = Some (VStr d0) →
    (∀ rw, rw ∈ rest → ∃ b, rw !! 1 = Some (VBool b)) →
    App.loadAll (Sheet.mkApi true true true true) (headerRow :: rest) s0 = Some s1 →
    (App.save a (headerRow :: rest) s1).2 = headerRow :: rest.
Proof.
  intros a headerRow rest d0 s0 s1 Hheader Hfirsts Hd0 Hboxes Hload.
  destruct (first_load headerRow rest d0 s0 s1 Hheader Hd0 Hload)
    as (_ & _ & Hsel & Hloaded).
  rewrite save_sheet, Hsel. case_bool_decide as Hne; [done |].
  destruct (Sheet.updateAttendanceInSheet a (headerRow :: rest) d0
              (attendanceRecords s1)).1.1 eqn:Hresult;
    [| by apply update_false_unchanged].
  apply update_true_service_up in Hresult as ->.
  pose proof (save_writes_view headerRow rest d0 s1 Hheader Hfirsts Hd0 Hne Hsel)
    as Hsave.
  apply (f_equal snd) in Hsave;
    [| eapply Forall2_impl; [exact Hloaded | by intros rw rec [? _]]].
  rewrite save_sheet, Hsel, bool_decide_eq_false_2 in Hsave by done.
  rewrite Hsave. cbn [snd]. f_equal.
  clear Hsave Hload Hfirsts.
  induction Hloaded as [|rw rec rest view [_ Hrec] _ IH]; [done |].
  cbn [zip_with]. rewrite IH by (intros rw' Hrw'; apply Hboxes; by right).
  f_equal. destruct (Hboxes rw ltac:(by left)) as [b Hb].
  rewrite Hrec, Hb, cell_present_bool. unfold Sheet.set_col.
  assert ((1 <? length rw) = true) as ->
    by (apply Nat.ltb_lt; by eapply lookup_lt_Some).
  by apply list_insert_id.
Qed.

Lemma checkbox_sheet_survives_noop_save_witness :
  let values := [ [VStr "Name"; VStr "7/20/2025"];
                  [VStr "Smith, Jane"; VBool true];
                  [VStr "Doe, John"; VBool false] ] in
  ∃ s1, App.loadAll Sample.service_up values initial = Some s1
        ∧ (App.save Sample.service_up values s1).2 = values.
Proof.
  intros values.
  destruct (App.loadAll Sample.service_up values initial) as [s1|] eqn:Hload;
    [| vm_compute in Hload; discriminate Hload].
  exists s1. split; [done |].
  refine (checkbox_sheet_survives_noop_save Sample.service_up
            [VStr "Name"; VStr "7/20/2025"]
            [ [VStr "Smith, Jane"; VBool true]; [VStr "Doe, John"; VBool false] ]
            "7/20/2025" initial s1 _ _ eq_refl _ Hload).
  - apply (bool_decide_unpack _). by vm_compute.
  - apply (bool_decide_unpack _). by vm_compute.
  - intros rw Hrw. apply list_elem_of_In in Hrw. cbn in Hrw.
    destruct Hrw as [<- | [<- | []]]; by eexists.
Defined.

End SessionFacts.

(** ** The whitelist: checks, cache, additions and removals *)

Section WhitelistFacts.
Import Auth AuthAdmin.

Lemma lower_ascii_idemp c : lower_ascii (lower_ascii c) = lower_ascii c.
Proof. by destruct c as [[] [] [] [] [] [] [] []]. Qed.

Lemma toLowerCase_idemp s : toLowerCase (toLowerCase s) = toLowerCase s.
Proof.
  induction s as [|c s IH]; [done |]. cbn. by rewrite lower_ascii_idemp, IH.
Qed.

(** A cache that [getAuthorizedEmails] does not answer from at time [now]. *)
Lemma cache_miss now fs users c :
  cachedAuthorizedEmails c = [] ∨ (CACHE_DURATION ≤ now - lastFetchTime c)%Z →
  getAuthorizedEmails now fs users c
  = if getDocs_ok fs
    then (map (λ d, toLowerCase (doc_email d)) users,
          mkCache (map (λ d, toLowerCase (doc_email d)) users) now)
    else ([], c).
Proof.
  intros Hmiss. unfold getAuthorizedEmails.
  assert ((0 <? length (cachedAuthorizedEmails c))
          && (now - lastFetchTime c <? CACHE_DURATION)%Z = false) as ->; [| done].
  destruct Hmiss as [-> | Hold]; [done |].
  apply andb_false_iff. right. apply Z.ltb_ge. lia.
Qed.

Lemma listed_iff (users : list doc) e :
  toLowerCase e ∈ map (λ d, toLowerCase (doc_email d)) users
  ↔ ∃ d, d ∈ users ∧ toLowerCase (doc_email d) = toLowerCase e.
Proof.
  change (map (λ d, toLowerCase (doc_email d)) users)
    with ((λ d, toLowerCase (doc_email d)) <$> users).
  rewrite list_elem_of_fmap. naive_solver.
Qed.

Lemma check_on_read now fs users c e :
  getDocs_ok fs = true →
  cachedAuthorizedEmails c = [] ∨ (CACHE_DURATION ≤ now - lastFetchTime c)%Z →
  (isUserAuthorized now fs users c (Some e)).1 = true ↔
    e ≠ "" ∧ ∃ d, d ∈ users ∧ toLowerCase (doc_email d) = toLowerCase e.
Proof.
  intros Hok Hmiss. unfold isUserAuthorized. case_bool_decide as He.
  - cbn. split; [done | by intros [? _]].
  - rewrite cache_miss, Hok by done. cbn [fst].
    rewrite bool_decide_eq_true, listed_iff. naive_solver.
Qed.

(** X11. On ASCII addresses (the checked one and the stored ones), a check
    that reads the collection (the cache is empty or older than ten
    minutes, and the read succeeds) authorizes exactly the non-empty
    addresses that equal a stored address up to the case of the letters A
    to Z; a null address is never authorized. In any state of the cache two
    non-empty addresses that differ only in the case of these letters get
    the same answer. *)
Theorem check_is_case_insensitive :
  ∀ (now : Z) (fs : firestore) (users : list doc) (c : cache) (e : string),
    (getDocs_ok fs = true →
     cachedAuthorizedEmails c = [] ∨ (CACHE_DURATION ≤ now - lastFetchTime c)%Z →
     is_ascii e = true →
     Forall (λ d, is_ascii (doc_email d) = true) users →
     ((isUserAuthorized now fs users c (Some e)).1 = true ↔
        e ≠ "" ∧ ∃ d, d ∈ users ∧ toLowerCase (doc_email d) = toLowerCase e))
    ∧ isUserAuthorized now fs users c None = (false, c)
    ∧ (∀ e', e ≠ "" → e' ≠ "" → toLowerCase e' = toLowerCase e →
         isUserAuthorized now fs users c (Some e')
         = isUserAuthorized now fs users c (Some e)).
Proof.
  intros now fs users c e. split; [| split; [done |]].
  - intros Hok Hmiss _ _. by apply check_on_read.
  - intros e' He He' Hsame. unfold isUserAuthorized.
    rewrite !bool_decide_eq_false_2 by done. by rewrite Hsame.
Qed.

Lemma check_is_case_insensitive_witness :
  (isUserAuthorized 1 (mkFirestore true true) [Sample.me; Sample.other]
     module_init (Some "Me@Example.ORG")).1 = true.
Proof.
  apply (proj1 (check_is_case_insensitive 1 (mkFirestore true true)
                  [Sample.me; Sample.other] module_init "Me@Example.ORG")
           eq_refl (or_introl eq_refl) eq_refl).
  - by repeat constructor.
  - split; [discriminate |]. exists Sample.me. split; [by left | done].
Defined.

(** X12. After a read that found at least one user, every call made less
    than ten minutes after it returns the list of that read and leaves the
    cache alone, whatever the collection holds by then and whether or not it
    can be read. *)
Theorem fresh_cache_answers_without_reading :
  ∀ (t0 t : Z) (fs fs' : firestore) (users users' : list doc) (c : cache),
    getDocs_ok fs = true →
    users ≠ [] →
    cachedAuthorizedEmails c = [] ∨ (CACHE_DURATION ≤ t0 - lastFetchTime c)%Z →
    (t - t0 < CACHE_DURATION)%Z →
    let first := getAuthorizedEmails t0 fs users c in
    first.1 = map (λ d, toLowerCase (doc_email d)) users
    ∧ getAuthorizedEmails t fs' users' first.2 = (first.1, first.2).
Proof.
  intros t0 t fs fs' users users' c Hok Hsome Hmiss Hfresh first. subst first.
  rewrite cache_miss, Hok by done. cbn [fst snd]. split; [done |].
  unfold getAuthorizedEmails. cbn [cachedAuthorizedEmails lastFetchTime].
  rewrite length_map.
  assert ((0 <? length users) = true) as ->
    by (apply Nat.ltb_lt; destruct users; [done | cbn; lia]).
  by assert ((t - t0 <? CACHE_DURATION)%Z = true) as -> by (by apply Z.ltb_lt).
Qed.

Lemma fresh_cache_answers_without_reading_witness :
  getAuthorizedEmails 599999 (mkFirestore false false) []
    (getAuthorizedEmails 0 (mkFirestore true true) [Sample.me] module_init).2
  = (["me@example.org"], mkCache ["me@example.org"] 0).
Proof.
  refine (proj2 (fresh_cache_answers_without_reading 0 599999
                   (mkFirestore true true) (mkFirestore false false)
                   [Sample.me] [] module_init eq_refl _ (or_introl eq_refl) _)).
  - discriminate.
  - unfold CACHE_DURATION. lia.
Defined.

Lemma add_success fs ok id now e by_ users c users' c' :
  addAuthorizedEmail fs ok id now e by_ users c = (true, users', c') →
  e ≠ "" ∧ getDocs_ok fs = true ∧ ok = true
  ∧ filter (λ d, doc_email d = toLowerCase e) users = []
  ∧ users' = users ++ [mkDoc id (toLowerCase e) by_ now]
  ∧ c' = mkCache [] 0.
Proof.
  unfold addAuthorizedEmail. case_bool_decide; [done |].
  destruct (getDocs_ok fs); [| done].
  destruct (filter _ users) as [|d l] eqn:Hf; [| done].
  destruct ok; [| done]. intros [= <- <-]. by repeat split.
Qed.

(** X13. An address that was added is authorized from then on, in any
    letter case, as soon as the collection can be read: the addition empties
    the cache, so the next check reads the collection. A second addition of
    the same address in any letter case is refused and changes nothing. *)
Theorem added_address_is_authorized :
  ∀ (fs : firestore) (addDoc_ok : bool) (id : string) (now : Z)
    (e addedBy : string) (users users' : list doc) (c c' : cache),
    addAuthorizedEmail fs addDoc_ok id now e addedBy users c = (true, users', c') →
    ∀ e', toLowerCase e' = toLowerCase e →
      (∀ t fs', getDocs_ok fs' = true → e' ≠ "" →
         (isUserAuthorized t fs' users' c' (Some e')).1 = true)
      ∧ (∀ fs' ok' id' t by',
           addAuthorizedEmail fs' ok' id' t e' by' users' c' = (false, users', c')).
Proof.
  intros fs ok id now e by_ users users' c c' Hadd e' Hsame.
  destruct (add_success _ _ _ _ _ _ _ _ _ _ Hadd) as (He & _ & _ & _ & -> & ->).
  split.
  - intros t fs' Hok He'.
    apply (check_on_read t fs' _ (mkCache [] 0) e' Hok (or_introl eq_refl)).
    split; [done |]. exists (mkDoc id (toLowerCase e) by_ now).
    split; [apply elem_of_app; right; by left |].
    cbn [doc_email]. by rewrite toLowerCase_idemp.
  - intros fs' ok' id' t by'. unfold addAuthorizedEmail.
    case_bool_decide; [done |]. destruct (getDocs_ok fs'); [| done].
    rewrite filter_app, filter_cons, decide_True by (by rewrite Hsame).
    by destruct (filter _ users).
Qed.

Lemma added_address_is_authorized_witness :
  (isUserAuthorized 5 (mkFirestore true true)
     ([Sample.me] ++ [mkDoc "doc9" "new@example.org" "me@example.org" 3])
     (mkCache [] 0) (Some "NEW@example.org")).1 = true.
Proof.
  refine (proj1 (added_address_is_authorized (mkFirestore true true) true "doc9" 3
                   "New@Example.org" "me@example.org" [Sample.me] _
                   (mkCache ["me@example.org"] 1) _ eq_refl
                   "NEW@example.org" eq_refl)
            5%Z (mkFirestore true true) eq_refl _).
  discriminate.
Defined.

Lemma NoDup_map_inj {A B} (f : A → B) (l : list A) x y :
  NoDup (map f l) → x ∈ l → y ∈ l → f x = f y → x = y.
Proof.
  intros Hnd [i Hi]%list_elem_of_lookup [j Hj]%list_elem_of_lookup Hf.
  assert (i = j) as ->; [| congruence].
  apply (NoDup_lookup (map f l) i j (f x) Hnd).
  - change (map f l) with (f <$> l). by rewrite list_lookup_fmap, Hi.
  - change (map f l) with (f <$> l). by rewrite list_lookup_fmap, Hj, Hf.
Qed.

Lemma NoDup_map_filter {A B} (f : A → B) (P : A → Prop) `{∀ x, Decision (P x)}
    (l : list A) :
  NoDup (map f l) → NoDup (map f (filter P l)).
Proof.
  induction l as [|x l IH]; [done |]. cbn [map]. rewrite NoDup_cons.
  intros [Hx Hl]. rewrite filter_cons. destruct (decide (P x)); [| auto].
  cbn [map]. apply NoDup_cons. split; [| auto].
  intros Hin. apply Hx. change (map f l) with (f <$> l).
  change (map f (filter P l)) with (f <$> filter P l) in Hin.
  apply list_elem_of_fmap in Hin as (y & -> & Hy).
  apply list_elem_of_filter in Hy as [_ Hy]. apply list_elem_of_fmap. eauto.
Qed.

Lemma remove_success fs e users c users' c' :
  removeAuthorizedEmail fs e users c = (true, users', c') →
  ∃ found, found ∈ users ∧ doc_email found = toLowerCase e
           ∧ users' = filter (λ d, doc_id d ≠ doc_id found) users
           ∧ c' = mkCache [] 0.
Proof.
  unfold removeAuthorizedEmail. destruct (getDocs_ok fs); [| done].
  destruct (filter _ users) as [|found l] eqn:Hf; [done |].
  destruct (deleteDoc_ok fs); [| done]. intros [= <- <-].
  assert (found ∈ filter (λ d, doc_email d = toLowerCase e) users) as Hin
    by (rewrite Hf; by left).
  apply list_elem_of_filter in Hin as [Hemail Hin]. by exists found.
Qed.

(** X14. With stored addresses in lower case and pairwise distinct, and
    document identifiers pairwise distinct, an addition (under a fresh
    identifier) and a removal both keep it so, whether they succeed or
    not. *)
Theorem whitelist_stays_well_formed :
  ∀ (fs : firestore) (users : list doc) (c : cache),
    store_ok users →
    (∀ addDoc_ok id now e addedBy,
       id ∉ map doc_id users →
       store_ok (addAuthorizedEmail fs addDoc_ok id now e addedBy users c).1.2)
    ∧ (∀ e, store_ok (removeAuthorizedEmail fs e users c).1.2).
Proof.
  intros fs users c (Hlower & Hemails & Hids). split.
  - intros ok id now e by_ Hfresh.
    destruct (addAuthorizedEmail fs ok id now e by_ users c) as [[[] users'] c']
      eqn:Hadd; cbn [fst snd].
    + destruct (add_success _ _ _ _ _ _ _ _ _ _ Hadd) as (_ & _ & _ & Hnone & -> & _).
      repeat split.
      * apply Forall_app. split; [done |]. apply Forall_singleton.
        cbn [doc_email]. apply toLowerCase_idemp.
      * rewrite map_app. apply NoDup_app. split; [done |].
        split; [| apply NoDup_singleton].
        intros x Hx [= ->]%list_elem_of_singleton.
        change (map doc_email users) with (doc_email <$> users) in Hx.
        apply list_elem_of_fmap in Hx as (d & Hd & Hin).
        assert (d ∈ filter (λ d, doc_email d = toLowerCase e) users) as Hf
          by (by apply list_elem_of_filter).
        rewrite Hnone in Hf. by apply elem_of_nil in Hf.
      * rewrite map_app. apply NoDup_app. split; [done |].
        split; [| apply NoDup_singleton].
        by intros x Hx [= ->]%list_elem_of_singleton.
    + assert (users' = users) as ->; [| done].
      revert Hadd. unfold addAuthorizedEmail.
      repeat (case_bool_decide || case_match); congruence.
  - intros e.
    destruct (removeAuthorizedEmail fs e users c) as [[[] users'] c']
      eqn:Hremove; cbn [fst snd].
    + destruct (remove_success _ _ _ _ _ _ Hremove) as (found & _ & _ & -> & _).
      repeat split.
      * apply Forall_forall. intros d [_ Hd]%list_elem_of_filter.
        rewrite Forall_forall in Hlower. auto.
      * by apply NoDup_map_filter.
      * by apply NoDup_map_filter.
    + assert (users' = users) as ->; [| done].
      revert Hremove. unfold removeAuthorizedEmail.
      repeat case_match; congruence.
Qed.

Lemma whitelist_stays_well_formed_witness :
  store_ok
    (addAuthorizedEmail (mkFirestore true true) true "doc9" 3 "New@Example.org"
       "me@example.org" [Sample.me; Sample.other] module_init).1.2.
Proof.
  refine (proj1 (whitelist_stays_well_formed (mkFirestore true true)
                   [Sample.me; Sample.other] module_init _)
            true "doc9" 3%Z "New@Example.org" "me@example.org" _).
  - repeat split.
    + by repeat constructor.
    + apply (bool_decide_unpack _). by vm_compute.
    + apply (bool_decide_unpack _). by vm_compute.
  - apply (bool_decide_unpack _). by vm_compute.
Defined.

Lemma removal_leaves_the_others fs e users users' c c' :
  store_ok users →
  removeAuthorizedEmail fs e users c = (true, users', c') →
  c' = mkCache [] 0
  ∧ ∀ d, d ∈ users' ↔ d ∈ users ∧ doc_email d ≠ toLowerCase e.
Proof.
  intros (Hlower & Hemails & Hids) Hremove.
  destruct (remove_success _ _ _ _ _ _ Hremove)
    as (found & Hfound & Hemail & -> & ->).
  split; [done |]. intros d. rewrite list_elem_of_filter. split.
  - intros [Hid Hd]. split; [done |]. intros Hsame. apply Hid. f_equal.
    apply (NoDup_map_inj doc_email users d found Hemails Hd Hfound). congruence.
  - intros [Hd Hother]. split; [| done]. intros Hid. apply Hother.
    rewrite <- Hemail. f_equal.
    by apply (NoDup_map_inj doc_id users d found Hids Hd Hfound).
Qed.

(** X15. On a well-formed whitelist a successful removal deletes exactly
    the documents of that address (compared in lower case), empties the
    cache, and the address is refused by every later check that can read
    the collection. *)
Theorem removed_address_is_refused :
  ∀ (fs : firestore) (e : string) (users users' : list doc) (c c' : cache),
    store_ok users →
    removeAuthorizedEmail fs e users c = (true, users', c') →
    c' = mkCache [] 0
    ∧ (∀ d, d ∈ users' ↔ d ∈ users ∧ doc_email d ≠ toLowerCase e)
    ∧ (∀ t fs' e', getDocs_ok fs' = true → toLowerCase e' = toLowerCase e →
         (isUserAuthorized t fs' users' c' (Some e')).1 = false).
Proof.
  intros fs e users users' c c' Hok Hremove.
  destruct (removal_leaves_the_others _ _ _ _ _ _ Hok Hremove) as [-> Hleft].
  split; [done |]. split; [done |].
  intros t fs' e' Hget Hsame.
  destruct (isUserAuthorized t fs' users' (mkCache [] 0) (Some e')).1 eqn:Hcheck;
    [| done].
  apply (check_on_read t fs' users' (mkCache [] 0) e' Hget (or_introl eq_refl))
    in Hcheck as (_ & d & Hd & Hlow).
  apply Hleft in Hd as [Hd Hother]. destruct Hother.
  destruct Hok as (Hlower & _). rewrite Forall_forall in Hlower.
  rewrite <- (Hlower d Hd). congruence.
Qed.

Lemma removed_address_is_refused_witness :
  (isUserAuthorized 9 (mkFirestore true true) [Sample.other] (mkCache [] 0)
     (Some "ME@example.org")).1 = false.
Proof.
  refine (proj2 (proj2 (removed_address_is_refused (mkFirestore true true)
                          "Me@Example.org" [Sample.me; Sample.other] [Sample.other]
                          (mkCache ["me@example.org"] 1) (mkCache [] 0) _ eq_refl))
            9%Z (mkFirestore true true) "ME@example.org" eq_refl eq_refl).
  repeat split.
  - by repeat constructor.
  - apply (bool_decide_unpack _). by vm_compute.
  - apply (bool_decide_unpack _). by vm_compute.
Defined.

Lemma filter_all {A} (P : A → Prop) `{∀ x, Decision (P x)} (l : list A) :
  Forall P l → filter P l = l.
Proof.
  induction 1 as [|x l Hx _ IH]; [done |]. by rewrite filter_cons_True, IH.
Qed.

(** X16. Removing an address right after it was added, in any letter case,
    gives back the collection as it was before the addition, provided the
    new document got an identifier no other document has. *)
Theorem add_then_remove_restores :
  ∀ (fs fs' : firestore) (addDoc_ok : bool) (id : string) (now : Z)
    (e e' addedBy : string) (users users' : list doc) (c c' : cache),
    id ∉ map doc_id users →
    addAuthorizedEmail fs addDoc_ok id now e addedBy users c = (true, users', c') →
    toLowerCase e' = toLowerCase e →
    getDocs_ok fs' = true → deleteDoc_ok fs' = true →
    removeAuthorizedEmail fs' e' users' c' = (true, users, mkCache [] 0).
Proof.
  intros fs fs' ok id now e e' by_ users users' c c' Hfresh Hadd Hsame Hget Hdel.
  destruct (add_success _ _ _ _ _ _ _ _ _ _ Hadd) as (_ & _ & _ & Hnone & -> & ->).
  unfold removeAuthorizedEmail. rewrite Hget, Hdel, Hsame.
  rewrite filter_app, Hnone, filter_cons, decide_True by done.
  cbn [app filter doc_id]. do 2 f_equal.
  rewrite filter_app, filter_cons, decide_False by (intros H; by apply H).
  rewrite filter_nil, app_nil_r.
  apply filter_all. apply Forall_forall. intros d Hd Hid. apply Hfresh.
  rewrite <- Hid. change (map doc_id users) with (doc_id <$> users).
  apply list_elem_of_fmap. eauto.
Qed.

Lemma add_then_remove_restores_witness :
  removeAuthorizedEmail (mkFirestore true true) "NEW@example.org"
    ([Sample.me] ++ [mkDoc "doc9" "new@example.org" "me@example.org" 3])
    (mkCache [] 0)
  = (true, [Sample.me], mkCache [] 0).
Proof.
  refine (add_then_remove_restores (mkFirestore true true) (mkFirestore true true)
            true "doc9" 3 "New@Example.org" "NEW@example.org" "me@example.org"
            [Sample.me] _ (mkCache ["me@example.org"] 1) _ _ eq_refl eq_refl
            eq_refl eq_refl).
  apply (bool_decide_unpack _). by vm_compute.
Defined.

End WhitelistFacts.

(** ** The handlers of the user-management panel *)

Section PanelFacts.
Import Auth AuthAdmin.

Lemma not_blank_not_empty s : blank s = false → s ≠ "".
Proof. by intros H ->. Qed.

(** X17. [handleAddEmail] does nothing at all on an input of ASCII white
    space only. For an ASCII input with another character: when the
    collection can be read and written, holds ASCII addresses and no
    document with the lower-cased input, it stores one such document
    recording the acting user, reloads the displayed list, which then holds
    the lower-cased input, clears the field and reports success; and when a
    document with that address exists it changes neither the collection nor
    the cache, keeps the field and shows the "may already be authorized"
    alert. *)
Theorem add_handler_outcomes :
  ∀ (currentUserEmail : string) (fs : firestore) (addDoc_ok : bool) (id : string)
    (added now : Z) (users : list doc) (c : cache) (p : panel),
    let result :=
      handleAddEmail currentUserEmail fs addDoc_ok id added now users c p in
    (blank (newEmail p) = true → result = (p, users, c))
    ∧ (blank (newEmail p) = false →
       is_ascii (newEmail p) = true →
       getDocs_ok fs = true → addDoc_ok = true →
       Forall (λ d, is_ascii (doc_email d) = true) users →
       (∀ d, d ∈ users → doc_email d ≠ toLowerCase (newEmail p)) →
       result.1.2
       = users ++ [mkDoc id (toLowerCase (newEmail p)) currentUserEmail added]
       ∧ authorizedEmails result.1.1
         = map (λ d, toLowerCase (doc_email d)) result.1.2
       ∧ toLowerCase (newEmail p) ∈ authorizedEmails result.1.1
       ∧ newEmail result.1.1 = ""
       ∧ addSuccess result.1.1 = true
       ∧ error result.1.1 = None
       ∧ isAdding result.1.1 = false)
    ∧ (blank (newEmail p) = false →
       is_ascii (newEmail p) = true →
       getDocs_ok fs = true →
       (∃ d, d ∈ users ∧ doc_email d = toLowerCase (newEmail p)) →
       result.1.2 = users ∧ result.2 = c
       ∧ newEmail result.1.1 = newEmail p
       ∧ authorizedEmails result.1.1 = authorizedEmails p
       ∧ addSuccess result.1.1 = false
       ∧ error result.1.1 = Some (MayAlreadyBeAuthorized (newEmail p))).
Proof.
  intros cur fs ok id added now users c p result. subst result.
  unfold handleAddEmail. split; [by intros -> |]. split.
  - intros Hblank _ Hget -> _ Hfree. rewrite Hblank.
    unfold addAuthorizedEmail.
    rewrite bool_decide_eq_false_2 by (by apply not_blank_not_empty).
    rewrite Hget.
    assert (filter (λ d, doc_email d = toLowerCase (newEmail p)) users = []) as ->.
    { destruct (filter _ users) as [|d l] eqn:Hf; [done |].
      assert (d ∈ filter (λ d, doc_email d = toLowerCase (newEmail p)) users) as Hd
        by (rewrite Hf; by left).
      apply list_elem_of_filter in Hd as [Hemail Hd]. by destruct (Hfree d Hd). }
    rewrite cache_miss, Hget by (by left). cbn [fst snd authorizedEmails
      newEmail addSuccess error isAdding].
    repeat split; try done.
    rewrite map_app. apply elem_of_app. right. cbn [map doc_email].
    rewrite toLowerCase_idemp. by left.
  - intros Hblank _ Hget (d & Hd & Hemail). rewrite Hblank.
    unfold addAuthorizedEmail.
    rewrite bool_decide_eq_false_2 by (by apply not_blank_not_empty).
    rewrite Hget.
    assert (d ∈ filter (λ d, doc_email d = toLowerCase (newEmail p)) users) as Hf
      by (by apply list_elem_of_filter).
    destruct (filter _ users); [by apply elem_of_nil in Hf | done].
Qed.

Lemma add_handler_outcomes_witness :
  let fs := mkFirestore true true in
  let empty := mkPanel ["me@example.org"] false None "   " false None false false in
  let new := mkPanel ["me@example.org"] false None "New@Example.org" false None
               false false in
  let again := mkPanel ["me@example.org"] false None "ME@example.org" false None
                 false false in
  handleAddEmail "me@example.org" fs true "doc9" 3 4 [Sample.me] module_init empty
  = (empty, [Sample.me], module_init)
  ∧ (handleAddEmail "me@example.org" fs true "doc9" 3 4 [Sample.me] module_init
       new).1.2
    = [Sample.me; mkDoc "doc9" "new@example.org" "me@example.org" 3]
  ∧ authorizedEmails
      (handleAddEmail "me@example.org" fs true "doc9" 3 4 [Sample.me] module_init
         new).1.1
    = ["me@example.org"; "new@example.org"]
  ∧ newEmail
      (handleAddEmail "me@example.org" fs true "doc9" 3 4 [Sample.me] module_init
         new).1.1
    = ""
  ∧ (handleAddEmail "me@example.org" fs true "doc9" 3 4 [Sample.me] module_init
       again).1.2
    = [Sample.me]
  ∧ error
      (handleAddEmail "me@example.org" fs true "doc9" 3 4 [Sample.me] module_init
         again).1.1
    = Some (MayAlreadyBeAuthorized "ME@example.org").
Proof.
  intros fs empty new again. split; [| split].
  - exact (proj1 (add_handler_outcomes "me@example.org" fs true "doc9" 3 4
                    [Sample.me] module_init empty) eq_refl).
  - destruct (proj1 (proj2 (add_handler_outcomes "me@example.org" fs true "doc9"
                              3 4 [Sample.me] module_init new))
                eq_refl eq_refl eq_refl eq_refl)
      as (Husers & _).
    + by repeat constructor.
    + intros d Hd. apply list_elem_of_In in Hd. simpl in Hd.
      destruct Hd as [<-|[]]. discriminate.
    + exact Husers.
  - destruct (proj1 (proj2 (add_handler_outcomes "me@example.org" fs true "doc9"
                              3 4 [Sample.me] module_init new))
                eq_refl eq_refl eq_refl eq_refl)
      as (Husers & Hlist & _ & Hfield & _).
    + by repeat constructor.
    + intros d Hd. apply list_elem_of_In in Hd. simpl in Hd.
      destruct Hd as [<-|[]]. discriminate.
    + split; [by rewrite Hlist, Husers |]. split; [exact Hfield |].
      destruct (proj2 (proj2 (add_handler_outcomes "me@example.org" fs true
                                "doc9" 3 4 [Sample.me] module_init again))
                  eq_refl eq_refl eq_refl)
        as (Hkept & _ & _ & _ & _ & Halert).
      * exists Sample.me. split; [by left | done].
      * by split.
Defined.

(** X18. Removing somebody else through [handleRemoveEmail] on a
    well-formed whitelist that can be read and written: when the address is
    stored (compared in lower case), its document is deleted and the list
    is reloaded without it, with the success flag set and no alert; when it
    is not stored, nothing is deleted, the cache is kept and the alert says
    that the removal failed. *)
Theorem remove_handler_outcomes :
  ∀ (currentUserEmail email : string) (now : Z) (users : list doc) (c : cache)
    (u : ui),
    email ≠ currentUserEmail →
    store_ok users →
    let fs := mkFirestore true true in
    let result := handleRemoveEmail currentUserEmail now fs email users c u in
    ((∃ d, d ∈ users ∧ doc_email d = toLowerCase email) →
     (∀ d, d ∈ (result.1.2) ↔ (d ∈ users ∧ doc_email d ≠ toLowerCase email))
     ∧ Auth.authorizedEmails result.1.1
       = map (λ d, toLowerCase (doc_email d)) result.1.2
     ∧ toLowerCase email ∉ Auth.authorizedEmails result.1.1
     ∧ Auth.removeSuccess result.1.1 = true
     ∧ Auth.error result.1.1 = None
     ∧ Auth.isRemoving result.1.1 = None)
    ∧ ((∀ d, d ∈ users → doc_email d ≠ toLowerCase email) →
       result.1.2 = users ∧ result.2 = c
       ∧ Auth.error result.1.1 = Some (FailedToRemove email)
       ∧ Auth.removeSuccess result.1.1 = false
       ∧ Auth.authorizedEmails result.1.1 = Auth.authorizedEmails u).
Proof.
  intros cur email now users c u Hother Hok fs result. subst result fs.
  unfold handleRemoveEmail. rewrite bool_decide_eq_false_2 by done. split.
  - intros (d & Hd & Hemail).
    destruct (removeAuthorizedEmail (mkFirestore true true) email users c)
      as [[success users'] c'] eqn:Hremove.
    assert (success = true) as ->.
    { revert Hremove. unfold removeAuthorizedEmail. cbn [getDocs_ok deleteDoc_ok].
      assert (d ∈ filter (λ d, doc_email d = toLowerCase email) users) as Hf
        by (by apply list_elem_of_filter).
      destruct (filter _ users); [by apply elem_of_nil in Hf |]. by intros [= <- _ _]. }
    destruct (removal_leaves_the_others _ _ _ _ _ _ Hok Hremove) as [-> Hleft].
    unfold loadAuthorizedEmails. rewrite cache_miss by (by left).
    cbn [getDocs_ok fst snd Auth.authorizedEmails Auth.error Auth.isRemoving
         Auth.removeSuccess Auth.loading].
    split; [done |]. split; [done |]. split; [| done].
    intros Hin. apply listed_iff in Hin as (d' & Hd' & Hlow).
    apply Hleft in Hd' as [Hd' Hne]. apply Hne.
    destruct Hok as (Hlower & _). rewrite Forall_forall in Hlower.
    by rewrite <- (Hlower d' Hd').
  - intros Hfree. unfold removeAuthorizedEmail. cbn [getDocs_ok].
    assert (filter (λ d, doc_email d = toLowerCase email) users = []) as ->.
    { destruct (filter _ users) as [|d l] eqn:Hf; [done |].
      assert (d ∈ filter (λ d, doc_email d = toLowerCase email) users) as Hd
        by (rewrite Hf; by left).
      apply list_elem_of_filter in Hd as [Hemail Hd]. by destruct (Hfree d Hd). }
    done.
Qed.

Lemma remove_handler_outcomes_witness :
  (handleRemoveEmail "me@example.org" 7 (mkFirestore true true) "You@Example.org"
     [Sample.me; Sample.other] module_init
     (mkUi ["me@example.org"; "you@example.org"] false None None false)).1.1
  = mkUi ["me@example.org"] false None None true.
Proof.
  destruct (proj1 (remove_handler_outcomes "me@example.org" "You@Example.org" 7
                     [Sample.me; Sample.other] module_init
                     (mkUi ["me@example.org"; "you@example.org"] false None None false)
                     ltac:(discriminate)
                     ltac:(repeat split; [by repeat constructor
                                         | apply (bool_decide_unpack _); by vm_compute
                                         | apply (bool_decide_unpack _); by vm_compute])))
    as (_ & _ & _ & Hsuccess & _).
  - exists Sample.other. split; [by right; left | done].
  - revert Hsuccess. by vm_compute.
Defined.

End PanelFacts.

(** ** The sign-in gate *)

Section GateFacts.
Import Auth Gate.

(** X19. The listener loads attendance data only for a signed-in user whose
    address passes [isUserAuthorized]; every other signed-in user is marked
    unauthorized, gets an error and is signed out. When the whitelist cannot
    be read and the cache is empty or older than ten minutes, that is the
    fate of every user, listed or not. *)
Theorem gate_loads_only_for_authorized :
  ∀ (currentUser : option (option string)) (now : Z) (fs : firestore)
    (signOut_ok : bool) (users : list doc) (c : cache) (g : cells),
    let result := onAuthStateChanged currentUser now fs signOut_ok users c g in
    (fetchAttendanceData_called result.2 = true ↔
       ∃ email, currentUser = Some email
                ∧ (isUserAuthorized now fs users c email).1 = true)
    ∧ (∀ email, currentUser = Some email →
         fetchAttendanceData_called result.2 = false →
         signOut_called result.2 = true
         ∧ isAuthorized result.1.1 = false
         ∧ is_Some (authError result.1.1))
    ∧ (getDocs_ok fs = false →
       cachedAuthorizedEmails c = [] ∨ (CACHE_DURATION ≤ now - lastFetchTime c)%Z →
       fetchAttendanceData_called result.2 = false)
    ∧ authLoading result.1.1 = false.
Proof.
  intros cu now fs so users c g result. subst result. unfold onAuthStateChanged.
  destruct cu as [email|]; cbn [fst snd].
  - destruct (isUserAuthorized now fs users c email) as [authorized c'] eqn:Hcheck.
    assert (getDocs_ok fs = false →
            cachedAuthorizedEmails c = [] ∨ (CACHE_DURATION ≤ now - lastFetchTime c)%Z →
            authorized = false) as Hlocked.
    { intros Hdown Hmiss. revert Hcheck. unfold isUserAuthorized.
      destruct email as [e|]; [| by intros [= <- _]].
      case_bool_decide; [by intros [= <- _] |].
      rewrite cache_miss, Hdown by done. by intros [= <- _]. }
    destruct authorized; cbn.
    + split; [| split; [| split]]; try done.
      split; [| done]. intros _. exists email. by rewrite Hcheck.
    + destruct so; cbn; (split; [| split; [| split]]); try done;
        try (split; [done |];
             intros (email' & [= <-] & H); rewrite Hcheck in H; done);
        try (intros email' _ _; repeat split; by eexists).
  - cbn. split; [| split; [| split]]; try done.
    split; [done |]. by intros (email & ? & _).
Qed.

Lemma gate_loads_only_for_authorized_witness :
  fetchAttendanceData_called
    (onAuthStateChanged (Some (Some "me@example.org")) 600000
       (mkFirestore false true) true [Sample.me] (mkCache ["me@example.org"] 0)
       (mkCells None true None false)).2 = false.
Proof.
  refine (proj1 (proj2 (proj2 (gate_loads_only_for_authorized
                                 (Some (Some "me@example.org")) 600000
                                 (mkFirestore false true) true [Sample.me]
                                 (mkCache ["me@example.org"] 0)
                                 (mkCells None true None false)))) eq_refl _).
  right. unfold CACHE_DURATION. cbn [lastFetchTime]. lia.
Defined.

End GateFacts.
